(** * Google Workspace samples: the Slides test helper and the Chat
      membership-update script

    A shallow embedding of
      - [slides/snippets/test/helpers.js]   (class [Helpers]), and
      - [chat/client-libraries/cloud/update-membership-user-cred.js]
        (function [main] and the top-level [main().catch(console.error)]).

    The JavaScript values that flow through the two files are JSON-like
    data; remote services are an environment that answers each call; every
    method runs in a small state-and-exception monad whose state carries
    the receiver object [this], the log of remote calls issued so far and
    the console.

    Every method but one has at most one remote call in flight, so a run
    of it is taken up to the point where the answer to that call has been
    processed, and the promise it returns is given in the state it ends
    in.  The exception is [cleanup], whose delete calls are all in flight
    together: there the calls are left pending and the answers are
    delivered afterwards, one at a time, in an arbitrary order. *)

From Stdlib Require Import ZArith List String Ascii Bool Lia DecimalString.
From Stdlib Require Import QArith Qround.
From Stdlib Require DecimalNat DecimalFacts.
Import ListNotations.
Local Open Scope string_scope.
Local Open Scope Z_scope.
Local Open Scope list_scope.
Set Warnings "-register-all".

(* ================================================================== *)
(** ** JavaScript values *)
(* ================================================================== *)

Module Js.

(** The data that request payloads, responses and errors are made of.
    Numbers are the integers (every numeric literal of the two files is
    one).  [Err] stands for an instance of [Error] or of one of its
    subclasses. *)
Inductive Val : Type :=
| Undefined
| Null
| Bool (b : bool)
| Num (z : Z)
| Str (s : string)
| Arr (elems : list Val)
| Obj (fields : list (string * Val))
| Err (name message : string).

(** A number passed as an argument: a finite number, which is an exact
    rational, [NaN] or [-Infinity].  These are the numbers on which the
    loop of [addSlides] comes to an end; [+Infinity], with which its
    guard [i < num] holds for ever, is left out.  Counters and array
    lengths are taken without bound. *)
Inductive Number : Type :=
| Finite (q : Q)
| NaN
| NegInfinity.

(** [i < num] for a counter [i]; a comparison with [NaN] is false. *)
Definition less_than (i : nat) (num : Number) : bool :=
  match num with
  | Finite q => negb (Qle_bool q (inject_Z (Z.of_nat i)))
  | NaN | NegInfinity => false
  end.

(** Completion of an evaluation: a value, a thrown exception, or an
    evaluation that does not complete (an [async] function suspended on
    a promise that never settles, a loop that is still running). *)
Inductive Completion (A : Type) : Type :=
| Normal (a : A)
| Throw (exn : Val)
| Suspend.
Arguments Normal {A} a.
Arguments Throw {A} exn.
Arguments Suspend {A}.

(** The state of a promise. *)
Inductive PState : Type :=
| Pending
| Fulfilled (value : Val)
| Rejected (reason : Val).

(** What a remote service answers to one call: a response, an error
    (the client libraries reject with an [Error] object), or nothing at
    all. *)
Inductive Reply : Type :=
| Success (res : Val)
| Failure (name message : string)
| NoReply.

(** ToBoolean. *)
Definition truthy (v : Val) : bool :=
  match v with
  | Undefined | Null => false
  | Bool b => b
  | Num z => negb (z =? 0)
  | Str s => negb (String.eqb s "")
  | Arr _ | Obj _ | Err _ _ => true
  end.

(** The exception raised by a property access on [undefined] or [null]. *)
Definition TypeError : Val :=
  Err "TypeError" "Cannot read properties of undefined or null".

(** Own-property lookup in an object; of two entries with the same key
    the later one is the one in force, as in an object literal. *)
Fixpoint lookup (k : string) (fields : list (string * Val)) : option Val :=
  match fields with
  | [] => None
  | (k', v) :: rest =>
      match lookup k rest with
      | Some w => Some w
      | None => if String.eqb k k' then Some v else None
      end
  end.

Definition of_option (o : option Val) : Val :=
  match o with Some v => v | None => Undefined end.

(** Decimal text of a natural number, as a template literal prints it. *)
Definition decimal (n : nat) : string := NilZero.string_of_uint (Nat.to_uint n).

(** [v.k]: member access by property name.  None of the names the two
    files read ([data], [presentationId], [spreadsheetId], [replies],
    [createShape], [createSheetsChart], [objectId]) is inherited from a
    prototype, so on arrays, strings, numbers, booleans and errors only
    [length] can be found. *)
Definition get (v : Val) (k : string) : Completion Val :=
  match v with
  | Undefined | Null => Throw TypeError
  | Obj fields => Normal (of_option (lookup k fields))
  | Arr elems =>
      Normal (if String.eqb k "length" then Num (Z.of_nat (List.length elems))
              else Undefined)
  | Str s =>
      Normal (if String.eqb k "length" then Num (Z.of_nat (String.length s))
              else Undefined)
  | Bool _ | Num _ | Err _ _ => Normal Undefined
  end.

(** [v[i]]: member access by array index. *)
Definition get_index (v : Val) (i : nat) : Completion Val :=
  match v with
  | Undefined | Null => Throw TypeError
  | Arr elems => Normal (of_option (nth_error elems i))
  | Obj fields => Normal (of_option (lookup (decimal i) fields))
  | Str s =>
      Normal (match String.get i s with
              | Some c => Str (String c EmptyString)
              | None => Undefined
              end)
  | Bool _ | Num _ | Err _ _ => Normal Undefined
  end.

(** A field path into a response, such as [data.replies[0].objectId],
    and the value found by following it.  [None] means that a property
    access on the way throws, because it is made on [undefined] or
    [null]; a key that is merely absent gives [Some Undefined]. *)
Inductive Step : Type :=
| field (name : string)
| index (i : nat).

Fixpoint read (v : Val) (path : list Step) : option Val :=
  match path with
  | [] => Some v
  | field k :: rest =>
      match get v k with Normal w => read w rest | _ => None end
  | index i :: rest =>
      match get_index v i with Normal w => read w rest | _ => None end
  end.

(** The property names of an object, in the order they were written. *)
Definition field_names (v : Val) : list string :=
  match v with
  | Obj fields => map fst fields
  | _ => []
  end.

End Js.
Import Js.

(* ================================================================== *)
(** ** The effect monad: receiver object, remote calls, console *)
(* ================================================================== *)

Inductive ConsoleLine : Type :=
| console_log (v : Val)
| console_error (v : Val).

(** [T] is the type of the receiver [this], [C] the type of remote calls. *)
Record St (T C : Type) : Type := mkSt {
  this : T;                    (* the object the method runs on *)
  calls : list C;              (* remote calls issued so far, oldest first *)
  console : list ConsoleLine;  (* lines printed so far, oldest first *)
  unhandled : list Val;        (* exceptions that escaped a callback *)
  cell : PState                (* the promise under construction *)
}.
Arguments mkSt {T C}.
Arguments this {T C}.
Arguments calls {T C}.
Arguments console {T C}.
Arguments unhandled {T C}.
Arguments cell {T C}.

Section Monad.
Context {T C : Type}.

(** The environment: what the remote side answers to each call. *)
Variable remote : C -> Reply.

Definition M (A : Type) : Type := St T C -> Completion A * St T C.

Definition ret {A} (a : A) : M A := fun s => (Normal a, s).

Definition bind {A B} (m : M A) (k : A -> M B) : M B :=
  fun s =>
    match m s with
    | (Normal a, s') => k a s'
    | (Throw e, s') => (Throw e, s')
    | (Suspend, s') => (Suspend, s')
    end.

Definition throw {A} (e : Val) : M A := fun s => (Throw e, s).

(** Lifting of a pure evaluation that may throw. *)
Definition eval {A} (c : Completion A) : M A := fun s => (c, s).

(** An evaluation that does not complete. *)
Definition never {A} : M A := fun s => (Suspend, s).

Definition get_this : M T := fun s => (Normal (this s), s).

Definition set_this (t : T) : M unit :=
  fun s => (Normal tt, mkSt t (calls s) (console s) (unhandled s) (cell s)).

Definition set_cell (p : PState) (s : St T C) : St T C :=
  mkSt (this s) (calls s) (console s) (unhandled s) p.

Definition log_call (c : C) (s : St T C) : St T C :=
  mkSt (this s) (calls s ++ [c]) (console s) (unhandled s) (cell s).

Definition log_unhandled (e : Val) (s : St T C) : St T C :=
  mkSt (this s) (calls s) (console s) (unhandled s ++ [e]) (cell s).

Definition print (l : ConsoleLine) : M unit :=
  fun s => (Normal tt,
            mkSt (this s) (calls s) (console s ++ [l]) (unhandled s) (cell s)).

(** A remote method called with a Node-style callback.  The call is
    issued; when the answer arrives the library invokes
    [callback(null, res)] or [callback(err)].  An exception thrown by
    the callback does not reach the code that issued the call. *)
Definition call_with_callback (c : C) (callback : Val -> Val -> M unit)
  : M unit :=
  fun s =>
    let s1 := log_call c s in
    let run cb :=
      match cb s1 with
      | (Throw e, s2) => (Normal tt, log_unhandled e s2)
      | (_, s2) => (Normal tt, s2)
      end in
    match remote c with
    | Success res => run (callback Null res)
    | Failure n m => run (callback (Err n m) Undefined)
    | NoReply => (Normal tt, s1)
    end.

(** A remote method called without a callback: it returns a promise.
    [call_promise] gives the state that promise ends in; [call_pending]
    only issues the call and leaves the promise pending, for callers
    that combine several calls in flight. *)
Definition call_promise (c : C) : M PState :=
  fun s =>
    (Normal match remote c with
            | Success res => Fulfilled res
            | Failure n m => Rejected (Err n m)
            | NoReply => Pending
            end,
     log_call c s).

Definition call_pending (c : C) : M PState :=
  fun s => (Normal Pending, log_call c s).

(** [Array.prototype.map] with a callback that has effects. *)
Fixpoint array_map {A B} (f : A -> M B) (l : list A) : M (list B) :=
  match l with
  | [] => ret []
  | a :: rest =>
      bind (f a) (fun b =>
      bind (array_map f rest) (fun bs => ret (b :: bs)))
  end.

(** [resolve] and [reject] of the promise under construction; a promise
    settles once, later calls have no effect. *)
Definition settle (p : PState) : M unit :=
  fun s =>
    (Normal tt, match cell s with Pending => set_cell p s | _ => s end).

Definition resolve (v : Val) : M unit := settle (Fulfilled v).
Definition reject (e : Val) : M unit := settle (Rejected e).

(** [new Promise(executor)]: the executor runs at once; an exception it
    throws rejects the promise, and the constructor returns when the
    executor does. *)
Definition new_Promise
    (executor : (Val -> M unit) -> (Val -> M unit) -> M unit) : M PState :=
  fun s =>
    let outer := cell s in
    let '(r, s1) := executor resolve reject (set_cell Pending s) in
    match r with
    | Normal _ => (Normal (cell s1), set_cell outer s1)
    | Throw e =>
        let s2 := snd (reject e s1) in
        (Normal (cell s2), set_cell outer s2)
    | Suspend => (Suspend, set_cell outer s1)
    end.

(** [Promise.denodeify(fn)] of the [promise] package: the wrapped
    function is called with the arguments followed by a callback
    [(err, res) => { if (err) rj(err); else rs(res); }]. *)
Definition denodeify (fn : Val -> (Val -> Val -> M unit) -> M unit)
  : Val -> M PState :=
  fun args =>
    new_Promise (fun rs rj =>
      fn args (fun err res => if truthy err then rj err else rs res)).

(** [p.then(onFulfilled)]. *)
Definition then_ (p : PState) (onFulfilled : Val -> M Val) : M PState :=
  match p with
  | Fulfilled v =>
      fun s =>
        match onFulfilled v s with
        | (Normal x, s') => (Normal (Fulfilled x), s')
        | (Throw e, s') => (Normal (Rejected e), s')
        | (Suspend, s') => (Normal Pending, s')
        end
  | Rejected e => ret (Rejected e)
  | Pending => ret Pending
  end.

(** [p.catch(onRejected)]. *)
Definition catch_ (p : PState) (onRejected : Val -> M Val) : M PState :=
  match p with
  | Rejected e =>
      fun s =>
        match onRejected e s with
        | (Normal x, s') => (Normal (Fulfilled x), s')
        | (Throw e', s') => (Normal (Rejected e'), s')
        | (Suspend, s') => (Normal Pending, s')
        end
  | Fulfilled v => ret (Fulfilled v)
  | Pending => ret Pending
  end.

(** [await p] inside an [async] function. *)
Definition await (p : PState) : M Val :=
  match p with
  | Fulfilled v => ret v
  | Rejected e => throw e
  | Pending => fun s => (Suspend, s)
  end.

(** Calling an [async] function: its body runs, and the promise it
    returns is fulfilled by a normal return and rejected by a throw. *)
Definition async (body : M Val) : M PState :=
  fun s =>
    match body s with
    | (Normal v, s') => (Normal (Fulfilled v), s')
    | (Throw e, s') => (Normal (Rejected e), s')
    | (Suspend, s') => (Normal Pending, s')
    end.

End Monad.

Declare Scope js_scope.
Delimit Scope js_scope with js.
Notation "x <- m ;; k" := (bind m (fun x => k))
  (at level 100, m at next level, right associativity) : js_scope.
Notation "m ;; k" := (bind m (fun _ => k))
  (at level 100, right associativity) : js_scope.

(* ================================================================== *)
(** ** [Promise.all] *)
(* ================================================================== *)

(** The promise [Promise.all(arr)] returns, together with the promises it
    waits for.  As in the [promise] package: [args] receives the value of
    each input as it is fulfilled, [remaining] counts the inputs not yet
    fulfilled, the result is resolved with [args] when the count reaches
    zero and rejected with the reason of the first input that is
    rejected. *)
Record Joint : Type := mkJoint {
  inputs : list PState;
  args : list Val;
  remaining : nat;
  result : PState
}.

(** [arr[i] = v]. *)
Fixpoint assign (i : nat) (v : Val) (l : list Val) : list Val :=
  match i, l with
  | _, [] => []
  | O, _ :: rest => v :: rest
  | S i', x :: rest => x :: assign i' v rest
  end.

Fixpoint assign_state (i : nat) (p : PState) (l : list PState) : list PState :=
  match i, l with
  | _, [] => []
  | O, _ :: rest => p :: rest
  | S i', x :: rest => x :: assign_state i' p rest
  end.

(** [Promise.all] of promises that are all still pending. *)
Definition Promise_all (arr : list PState) : Joint :=
  let n := List.length arr in
  mkJoint arr (repeat Undefined n) n
          (match n with O => Fulfilled (Arr []) | S _ => Pending end).

(** The [i]-th input settles with [r].  An input settles once. *)
Definition deliver (j : Joint) (ev : nat * Reply) : Joint :=
  let '(i, r) := ev in
  match nth_error (inputs j) i, r with
  | Some Pending, Success v =>
      let args' := assign i v (args j) in
      let remaining' := pred (remaining j) in
      mkJoint (assign_state i (Fulfilled v) (inputs j)) args' remaining'
              (match result j, remaining' with
               | Pending, O => Fulfilled (Arr args')
               | p, _ => p
               end)
  | Some Pending, Failure n m =>
      mkJoint (assign_state i (Rejected (Err n m)) (inputs j))
              (args j) (remaining j)
              (match result j with
               | Pending => Rejected (Err n m)
               | p => p
               end)
  | _, _ => j
  end.

(** The answers arrive in the order of [schedule]. *)
Definition deliver_all (j : Joint) (schedule : list (nat * Reply)) : Joint :=
  fold_left deliver schedule j.

(* ================================================================== *)
(** ** slides/snippets/test/helpers.js *)
(* ================================================================== *)

Module Slides.

Record GoogleAuth : Type := { scopes : list string }.

(** A service object of the [googleapis] package. *)
Record Service : Type := {
  api : string;
  version : string;
  auth : GoogleAuth
}.

(** One remote call: the service it goes through, the method and the
    request parameters. *)
Record Rpc : Type := {
  service : Service;
  method : string;
  params : Val
}.

Record Helpers : Type := {
  driveService : Service;
  slidesService : Service;
  sheetsService : Service;
  filesToDelete : list Val
}.

Definition set_filesToDelete (h : Helpers) (l : list Val) : Helpers :=
  {| driveService := driveService h;
     slidesService := slidesService h;
     sheetsService := sheetsService h;
     filesToDelete := l |}.

Definition constructor : Helpers :=
  let auth :=
    {| scopes := [ "https://www.googleapis.com/auth/drive";
                   "https://www.googleapis.com/auth/presentations";
                   "https://www.googleapis.com/auth/spreadsheets" ] |} in
  {| driveService := {| api := "drive"; version := "v3"; auth := auth |};
     slidesService := {| api := "slides"; version := "v1"; auth := auth |};
     sheetsService := {| api := "sheets"; version := "v4"; auth := auth |};
     filesToDelete := [] |}.

(** The remote methods the helper calls, [service.resource.method(params)]. *)
Definition files_delete (drive : Service) (params : Val) : Rpc :=
  {| service := drive; method := "files.delete"; params := params |}.
Definition presentations_create (slides : Service) (params : Val) : Rpc :=
  {| service := slides; method := "presentations.create"; params := params |}.
Definition presentations_batchUpdate (slides : Service) (params : Val) : Rpc :=
  {| service := slides; method := "presentations.batchUpdate";
     params := params |}.
Definition spreadsheets_create (sheets : Service) (params : Val) : Rpc :=
  {| service := sheets; method := "spreadsheets.create"; params := params |}.
Definition spreadsheets_batchUpdate (sheets : Service) (params : Val) : Rpc :=
  {| service := sheets; method := "spreadsheets.batchUpdate";
     params := params |}.

(** A method of [Helpers]. *)
Definition Method (A : Type) : Type := @M Helpers Rpc A.

Section Methods.
Variable remote : Rpc -> Reply.
Local Open Scope js_scope.

Definition reset : Method unit :=
  h <- get_this;;
  set_this (set_filesToDelete h []).

Definition deleteFileOnCleanup (id : Val) : Method unit :=
  h <- get_this;;
  set_this (set_filesToDelete h (filesToDelete h ++ [id])).

Definition cleanup : Method Joint :=
  h <- get_this;;
  promises <- array_map (fun fileId =>
                h' <- get_this;;
                call_pending
                  (files_delete (driveService h')
                                (Obj [("fileId", fileId)])))
              (filesToDelete h);;
  ret (Promise_all promises).

Definition createTestPresentation : Method PState :=
  new_Promise (fun resolve reject =>
    h <- get_this;;
    call_with_callback remote
      (presentations_create (slidesService h)
         (Obj [("title", Str "Test Preso")]))
      (fun err presentation =>
         if truthy err then reject err else
         data <- eval (get presentation "data");;
         id <- eval (get data "presentationId");;
         deleteFileOnCleanup id;;
         data' <- eval (get presentation "data");;
         id' <- eval (get data' "presentationId");;
         resolve id')).

(** The [for] loop of [addSlides], entered with counter [i]: each step
    tests the guard [i < num]; while it holds the loop pushes the
    identifier, reads it back as [slideIds[i]] for the request, and
    increments [i]; when it fails the loop ends with what was built.
    Each test of the guard takes one unit of [fuel]; [None] means that
    the fuel is spent and the loop is still running. *)
Fixpoint addSlides_loop (fuel : nat) (i : nat) (num : Number)
    (predefinedLayout : Val) (slideIds requests : list Val)
  : option (list Val * list Val) :=
  match fuel with
  | O => None
  | S fuel' =>
      if less_than i num then
        let slideIds' := slideIds ++ [Str ("slide_" ++ decimal i)] in
        let requests' :=
          requests ++
          [Obj [("createSlide",
                 Obj [("objectId", of_option (nth_error slideIds' i));
                      ("slideLayoutReference",
                       Obj [("predefinedLayout", predefinedLayout)])])]] in
        addSlides_loop fuel' (S i) num predefinedLayout slideIds' requests'
      else Some (slideIds, requests)
  end.

(** A bound on the number of times the loop of [addSlides] tests its
    guard: a finite [num] is at most its numerator, and the counter
    starts at [0], so the guard fails within [numerator + 1] tests. *)
Definition addSlides_fuel (num : Number) : nat :=
  match num with
  | Finite q => S (Z.to_nat (Qnum q))
  | NaN | NegInfinity => 1
  end.

Definition addSlides (presentationId : Val) (num : Number)
    (predefinedLayout : Val) : Method PState :=
  new_Promise (fun resolve reject =>
    match addSlides_loop (addSlides_fuel num) 0 num predefinedLayout [] []
    with
    | None => never
    | Some (slideIds, requests) =>
        h <- get_this;;
        call_with_callback remote
          (presentations_batchUpdate (slidesService h)
             (Obj [("presentationId", presentationId);
                   ("resource", Obj [("requests", Arr requests)])]))
          (fun err response =>
             if truthy err then reject err else
             resolve (Arr slideIds))
    end).

Definition createTestTextbox (presentationId pageObjectId : Val)
  : Method PState :=
  new_Promise (fun resolve reject =>
    let boxId := Str "MyTextBox_01" in
    let pt350 := Obj [("magnitude", Num 350); ("unit", Str "PT")] in
    let requests :=
      Arr [Obj [("createShape",
                 Obj [("objectId", boxId);
                      ("shapeType", Str "TEXT_BOX");
                      ("elementProperties",
                       Obj [("pageObjectId", pageObjectId);
                            ("size", Obj [("height", pt350);
                                          ("width", pt350)]);
                            ("transform",
                             Obj [("scaleX", Num 1);
                                  ("scaleY", Num 1);
                                  ("translateX", Num 350);
                                  ("translateY", Num 100);
                                  ("unit", Str "PT")])])])];
           Obj [("insertText",
                 Obj [("objectId", boxId);
                      ("insertionIndex", Num 0);
                      ("text", Str "New Box Text Inserted")])]] in
    h <- get_this;;
    call_with_callback remote
      (presentations_batchUpdate (slidesService h)
         (Obj [("presentationId", presentationId);
               ("resource", Obj [("requests", requests)])]))
      (fun err createTextboxResponse =>
         if truthy err then reject err else
         data <- eval (get createTextboxResponse "data");;
         replies <- eval (get data "replies");;
         reply <- eval (get_index replies 0);;
         createShape <- eval (get reply "createShape");;
         objectId <- eval (get createShape "objectId");;
         resolve objectId)).

Definition createTestSheetsChart
    (presentationId pageId spreadsheetId sheetChartId : Val)
  : Method PState :=
  new_Promise (fun resolve reject =>
    let chartId := Str "MyChart_01" in
    let emu4M := Obj [("magnitude", Num 4000000); ("unit", Str "EMU")] in
    let requests :=
      Arr [Obj [("createSheetsChart",
                 Obj [("objectId", chartId);
                      ("spreadsheetId", spreadsheetId);
                      ("chartId", sheetChartId);
                      ("linkingMode", Str "LINKED");
                      ("elementProperties",
                       Obj [("pageObjectId", pageId);
                            ("size", Obj [("height", emu4M);
                                          ("width", emu4M)]);
                            ("transform",
                             Obj [("scaleX", Num 1);
                                  ("scaleY", Num 1);
                                  ("translateX", Num 100000);
                                  ("translateY", Num 100000);
                                  ("unit", Str "EMU")])])])]] in
    h <- get_this;;
    call_with_callback remote
      (presentations_batchUpdate (slidesService h)
         (Obj [("presentationId", presentationId);
               ("resource", Obj [("requests", requests)])]))
      (fun err createSheetsChartResponse =>
         if truthy err then reject err else
         data <- eval (get createSheetsChartResponse "data");;
         replies <- eval (get data "replies");;
         reply <- eval (get_index replies 0);;
         createSheetsChart <- eval (get reply "createSheetsChart");;
         objectId <- eval (get createSheetsChart "objectId");;
         resolve objectId)).

Definition createTestSpreadsheet : Method PState :=
  h <- get_this;;
  let createSpreadsheet :=
    denodeify (fun params callback =>
      call_with_callback remote
        (spreadsheets_create (sheetsService h) params) callback) in
  p <- createSpreadsheet
         (Obj [("resource",
                Obj [("properties",
                      Obj [("title", Str "Test Spreadsheet")])]);
               ("fields", Str "spreadsheetId")]);;
  then_ p (fun spreadsheet =>
    data <- eval (get spreadsheet "data");;
    id <- eval (get data "spreadsheetId");;
    deleteFileOnCleanup id;;
    data' <- eval (get spreadsheet "data");;
    id' <- eval (get data' "spreadsheetId");;
    ret id').

Definition populateValues (spreadsheetId : Val) : Method PState :=
  h <- get_this;;
  let batchUpdate :=
    denodeify (fun params callback =>
      call_with_callback remote
        (spreadsheets_batchUpdate (sheetsService h) params) callback) in
  p <- batchUpdate
         (Obj [("spreadsheetId", spreadsheetId);
               ("resource",
                Obj [("requests",
                      Arr [Obj [("repeatCell",
                        Obj [("range",
                              Obj [("sheetId", Num 0);
                                   ("startRowIndex", Num 0);
                                   ("endRowIndex", Num 15);
                                   ("startColumnIndex", Num 0);
                                   ("endColumnIndex", Num 15)]);
                             ("cell",
                              Obj [("userEnteredValue",
                                    Obj [("stringValue", Str "Hello")])]);
                             ("fields", Str "userEnteredValue")])]])])]);;
  then_ p (fun _ => ret spreadsheetId).

End Methods.

(** Running a method on a helper [h] with nothing logged yet. *)
Definition start (h : Helpers) : St Helpers Rpc :=
  mkSt h [] [] [] Pending.

(** *** Vocabulary of the statements about [Helpers] *)

(** The three service fields of [h'] are those of [h]. *)
Definition same_services (h h' : Helpers) : Prop :=
  driveService h' = driveService h /\
  slidesService h' = slidesService h /\
  sheetsService h' = sheetsService h.

(** From state [s] the method [m] issues the call [c] and no other,
    whatever the remote side answers. *)
Definition issues_only (m : (Rpc -> Reply) -> Method PState)
    (s : St Helpers Rpc) (c : Rpc) : Prop :=
  forall remote, calls (snd (m remote s)) = calls s ++ [c].

(** When the call [c] fails, the promise of [m] is rejected with the
    error received, [c] is the only call issued and nothing else
    changes. *)
Definition rejects_with_error_received
    (m : (Rpc -> Reply) -> Method PState)
    (s : St Helpers Rpc) (c : Rpc) : Prop :=
  forall remote name message,
    remote c = Failure name message ->
    m remote s
    = (Normal (Rejected (Err name message)),
       mkSt (this s) (calls s ++ [c]) (console s) (unhandled s) (cell s)).

(** When the call [c] succeeds with a response that has a value at
    [path], the promise of [m] is fulfilled with that value. *)
Definition resolves_with_field
    (m : (Rpc -> Reply) -> Method PState)
    (s : St Helpers Rpc) (c : Rpc) (path : list Step) : Prop :=
  forall remote res v,
    remote c = Success res ->
    read res path = Some v ->
    fst (m remote s) = Normal (Fulfilled v).

(** The delete call [cleanup] makes for one tracked identifier. *)
Definition delete_call (h : Helpers) (fileId : Val) : Rpc :=
  files_delete (driveService h) (Obj [("fileId", fileId)]).

(** The number of slides [addSlides] makes for [num]: the number of
    counters [0, 1, 2, ...] below [num], that is [num] rounded up to an
    integer, and none when [num] is not positive. *)
Definition slide_count (num : Number) : nat :=
  match num with
  | Finite q => Z.to_nat (Qceiling q)
  | NaN | NegInfinity => 0
  end.

(** The identifiers and requests of [addSlides], as its description
    gives them: [slide_0] ... [slide_(n-1)], one [createSlide] each. *)
Definition slide_id (i : nat) : Val := Str ("slide_" ++ decimal i).

Definition slide_ids (n : nat) : list Val := map slide_id (seq 0 n).

Definition createSlide_request (predefinedLayout : Val) (i : nat) : Val :=
  Obj [("createSlide",
        Obj [("objectId", slide_id i);
             ("slideLayoutReference",
              Obj [("predefinedLayout", predefinedLayout)])])].

Definition slide_requests (predefinedLayout : Val) (n : nat) : list Val :=
  map (createSlide_request predefinedLayout) (seq 0 n).

End Slides.

Import Slides.

(** *** Vocabulary of the statements about promises *)

Definition is_pending (p : PState) : bool :=
  match p with Pending => true | _ => false end.

Definition is_fulfilled (p : PState) : bool :=
  match p with Fulfilled _ => true | _ => false end.

Definition value_of (p : PState) : Val :=
  match p with Fulfilled v => v | _ => Undefined end.

(** Number of inputs that are not fulfilled (pending or rejected). *)
Definition unfulfilled (l : list PState) : nat :=
  List.length (filter (fun p => negb (is_fulfilled p)) l).

(** "The joint promise is settled only when every input is settled." *)
Definition settles_after_all (j : Joint) : Prop :=
  is_pending (result j) = false ->
  forallb (fun p => negb (is_pending p)) (inputs j) = true.

(* ================================================================== *)
(** ** chat/client-libraries/cloud/update-membership-user-cred.js *)
(* ================================================================== *)

Module Chat.

Definition USER_AUTH_OAUTH_SCOPES : list string :=
  ["https://www.googleapis.com/auth/chat.memberships"].

Section Script.
(** The client object; its class comes from the Chat client library. *)
Variable ChatClient : Type.

(** What the promise returned by [createClientWithUserCredentials]
    (imported from [./authentication-utils.js]) ends as: a client, an
    error, or nothing. *)
Inductive ClientResult : Type :=
| Client (c : ChatClient)
| ClientError (name message : string)
| NoClient.

Variable createClientWithUserCredentials : list string -> ClientResult.

(** The remote calls of the script. *)
Inductive Rpc : Type :=
| updateMembership (chatClient : ChatClient) (request : Val).

Variable remote : Rpc -> Reply.

Definition Script (A : Type) : Type := @M unit Rpc A.

Local Open Scope js_scope.

(** [await createClientWithUserCredentials(scopes)]. *)
Definition await_client (scopes : list string) : Script ChatClient :=
  match createClientWithUserCredentials scopes with
  | Client c => ret c
  | ClientError n m => throw (Err n m)
  | NoClient => fun s => (Suspend, s)
  end.

Definition main : Script PState :=
  async (
    chatClient <- await_client USER_AUTH_OAUTH_SCOPES;;
    let request :=
      Obj [("membership",
            Obj [("name", Str "spaces/SPACE_NAME/members/MEMBER_NAME");
                 ("role", Str "ROLE_NAME")]);
           ("updateMask", Obj [("paths", Arr [Str "role"])])] in
    p <- call_promise remote (updateMembership chatClient request);;
    response <- await p;;
    print (console_log response);;
    ret Undefined).

(** The top level of the module: [main().catch(console.error)]. *)
Definition script : Script PState :=
  p <- main;;
  catch_ p (fun e => print (console_error e);; ret Undefined).

Definition start : St unit Rpc := mkSt tt [] [] [] Pending.

End Script.

Arguments Client {ChatClient} c.
Arguments ClientError {ChatClient} name message.
Arguments NoClient {ChatClient}.
Arguments updateMembership {ChatClient} chatClient request.
Arguments main {ChatClient} createClientWithUserCredentials remote.
Arguments script {ChatClient} createClientWithUserCredentials remote.
Arguments start {ChatClient}.

(** *** Vocabulary of the statements about the script *)

(** The request object [main] builds, named for the statements. *)
Definition update_request : Val :=
  Obj [("membership",
        Obj [("name", Str "spaces/SPACE_NAME/members/MEMBER_NAME");
             ("role", Str "ROLE_NAME")]);
       ("updateMask", Obj [("paths", Arr [Str "role"])])].

(** Two ways the client can be obtained or not: a client named by a
    string, and a failure to load the credentials. *)
Definition client_ready (scopes : list string) : ClientResult string :=
  Client "chat-client".

Definition no_credentials (scopes : list string) : ClientResult string :=
  ClientError "Error" "no credentials".

End Chat.

(** The promise [cleanup] returned on [s], once the answers of
    [schedule] have arrived: the pair [(i, r)] is the answer [r] to the
    [i]-th delete call. *)
Definition cleanup_promise (s : St Helpers Rpc)
    (schedule : list (nat * Reply)) : option Joint :=
  match fst (cleanup s) with
  | Normal j => Some (deliver_all j schedule)
  | _ => None
  end.

(** A helper that tracks two files. *)
Definition two_files : St Helpers Rpc :=
  start (set_filesToDelete constructor [Str "file_1"; Str "file_2"]).

(** Two remote sides: one that fails every call, one that answers every
    call with a response carrying the fields the helper reads. *)
Definition backend_error : Rpc -> Reply :=
  fun _ => Failure "Error" "backend error".

Definition backend_ok : Rpc -> Reply :=
  fun _ =>
    Success
      (Obj [("data",
             Obj [("presentationId", Str "presentation_1");
                  ("spreadsheetId", Str "spreadsheet_1");
                  ("replies",
                   Arr [Obj [("createShape",
                              Obj [("objectId", Str "MyTextBox_01")]);
                             ("createSheetsChart",
                              Obj [("objectId", Str "MyChart_01")])]])])]).

(** The promise a call ends as, given the answer to it. *)
Definition state_of_reply (r : Reply) : PState :=
  match r with
  | Success v => Fulfilled v
  | Failure n m => Rejected (Err n m)
  | NoReply => Pending
  end.

(** What holds of a [Promise.all] in every state it can reach. *)
Definition joint_inv (j : Joint) : Prop :=
  List.length (args j) = List.length (inputs j) /\
  remaining j = unfulfilled (inputs j) /\
  (forall i v, nth_error (inputs j) i = Some (Fulfilled v) ->
               nth_error (args j) i = Some v) /\
  match result j with
  | Pending => remaining j <> 0%nat /\
               forall e, ~ In (Rejected e) (inputs j)
  | Fulfilled x => remaining j = 0%nat /\ x = Arr (args j)
  | Rejected e => In (Rejected e) (inputs j)
  end.

(** *** Vocabulary of the further statements *)

(** The state after [deleteFileOnCleanup] was called with each element of
    [ids] in turn. *)
Definition register_all (ids : list Val) (s : St Helpers Rpc)
  : St Helpers Rpc :=
  fold_left (fun st id => snd (deleteFileOnCleanup id st)) ids s.

(** When the call [c] is never answered, the promise of [m] stays
    pending and nothing but the call log changes. *)
Definition stays_pending (m : (Rpc -> Reply) -> Method PState)
    (s : St Helpers Rpc) (c : Rpc) : Prop :=
  forall remote,
    remote c = NoReply ->
    m remote s
    = (Normal Pending,
       mkSt (this s) (calls s ++ [c]) (console s) (unhandled s) (cell s)).

(** When the call [c] succeeds with a response on which reading [path]
    throws, the [TypeError] leaves the callback of [m] and nobody
    catches it: the promise stays pending and the helper is unchanged. *)
Definition hangs_without_field (m : (Rpc -> Reply) -> Method PState)
    (s : St Helpers Rpc) (c : Rpc) (path : list Step) : Prop :=
  forall remote res,
    remote c = Success res ->
    read res path = None ->
    m remote s
    = (Normal Pending,
       mkSt (this s) (calls s ++ [c]) (console s)
            (unhandled s ++ [TypeError]) (cell s)).

(** When the call [c] succeeds with a response that has the value [id]
    at [path], the promise of [m] is fulfilled with [id] and [id] is
    appended to the tracked list; nothing else changes but the call
    log. *)
Definition tracks_created (m : (Rpc -> Reply) -> Method PState)
    (s : St Helpers Rpc) (c : Rpc) (path : list Step) : Prop :=
  forall remote res id,
    remote c = Success res ->
    read res path = Some id ->
    m remote s
    = (Normal (Fulfilled id),
       mkSt (set_filesToDelete (this s) (filesToDelete (this s) ++ [id]))
            (calls s ++ [c]) (console s) (unhandled s) (cell s)).

(** [num <= 0], or [num] is [NaN] or [-Infinity]. *)
Definition not_positive (num : Number) : Prop :=
  match num with
  | Finite q => (q <= 0)%Q
  | NaN | NegInfinity => True
  end.

(** No answer of the schedule is an error, and none answers call [i]. *)
Definition quiet_before (i : nat) (schedule : list (nat * Reply)) : Prop :=
  forall k r, In (k, r) schedule ->
    match r with
    | Failure _ _ => False
    | Success _ => k <> i
    | NoReply => True
    end.

(* ================================================================== *)
(** ** The model at work *)
(* ================================================================== *)

Example decimal_examples :
  decimal 0 = "0"%string /\ decimal 7 = "7"%string /\
  decimal 12 = "12"%string.
Proof. repeat split. Qed.

Example get_later_entry_wins :
  get (Obj [("a", Num 1); ("a", Num 2)]) "a" = Normal (Num 2).
Proof. reflexivity. Qed.

Example get_of_undefined_throws : get Undefined "data" = Throw TypeError.
Proof. reflexivity. Qed.

(** A successful [createTestPresentation] on a fresh helper. *)
Example createTestPresentation_example :
  createTestPresentation backend_ok (start constructor)
  = (Normal (Fulfilled (Str "presentation_1")),
     mkSt (set_filesToDelete constructor [Str "presentation_1"])
          [presentations_create (slidesService constructor)
                                (Obj [("title", Str "Test Preso")])]
          [] [] Pending).
Proof. reflexivity. Qed.

(** A response without [data]: the property access throws inside the
    callback.  In [createTestPresentation] the exception escapes the
    callback and the promise stays pending; in [createTestSpreadsheet]
    the callback of [then] throws and the promise is rejected.  Either
    way nothing is tracked. *)
Example response_without_data :
  createTestPresentation (fun _ => Success (Obj [])) (start constructor)
  = (Normal Pending,
     mkSt constructor
          [presentations_create (slidesService constructor)
                                (Obj [("title", Str "Test Preso")])]
          [] [TypeError] Pending) /\
  fst (createTestSpreadsheet (fun _ => Success (Obj [])) (start constructor))
  = Normal (Rejected TypeError) /\
  filesToDelete (this (snd (createTestSpreadsheet (fun _ => Success (Obj []))
                                                  (start constructor))))
  = [].
Proof. repeat split. Qed.

(** [Promise.all] of no promise is fulfilled at once. *)
Example cleanup_of_nothing :
  cleanup (start constructor)
  = (Normal (mkJoint [] [] 0 (Fulfilled (Arr []))), start constructor).
Proof. reflexivity. Qed.

(* ================================================================== *)
(** ** Properties of [Helpers]: the tracked-identifier list *)
(* ================================================================== *)

(** Unfolds one method down to the state it produces. *)
Ltac run_method :=
  cbv [reset deleteFileOnCleanup createTestPresentation addSlides
       createTestTextbox createTestSheetsChart createTestSpreadsheet
       populateValues new_Promise denodeify then_ call_with_callback
       bind ret eval get_this set_this resolve reject settle];
  cbn [this calls console unhandled cell set_cell log_call log_unhandled
       fst snd truthy].

(** Splits on the scrutinee of the outermost stuck [match]. *)
Ltac split_match :=
  match goal with
  | |- context [match ?f ?c with Success _ => _ | _ => _ end] =>
      destruct (f c) eqn:?
  | |- context [match get ?v ?k with _ => _ end] => destruct (get v k) eqn:?
  | |- context [match get_index ?v ?k with _ => _ end] =>
      destruct (get_index v k) eqn:?
  end;
  cbn [this calls console unhandled cell set_cell log_call log_unhandled
       fst snd truthy].

Ltac run_cases := run_method; repeat split_match.

Create HintDb helpers.
#[local] Hint Unfold same_services set_filesToDelete : helpers.

Lemma same_services_refl (h : Helpers) : same_services h h.
Proof. repeat split. Qed.

Lemma same_services_set (h : Helpers) (l : list Val) :
  same_services h (set_filesToDelete h l).
Proof. repeat split. Qed.

#[local] Hint Resolve same_services_refl same_services_set : helpers.

Section HelpersState.
Variable remote : Rpc -> Reply.

(** The synchronous part of [cleanup]: one pending delete call per
    element, issued in list order; nothing else changes. *)
Lemma cleanup_issue_map (l : list Val) (s : St Helpers Rpc) :
  array_map (fun fileId =>
               bind get_this (fun h' =>
               call_pending (files_delete (driveService h')
                                          (Obj [("fileId", fileId)]))))
            l s
  = (Normal (repeat Pending (List.length l)),
     mkSt (this s) (calls s ++ map (delete_call (this s)) l)
          (console s) (unhandled s) (cell s)).
Proof.
  revert s. induction l as [|id l IH]; intros [h cs con un c].
  - cbn. now rewrite app_nil_r.
  - cbn [array_map]. unfold bind at 1. unfold bind at 1.
    cbn [get_this call_pending log_call this calls console unhandled cell].
    unfold bind at 1. rewrite IH.
    cbv [ret log_call].
    cbn [this calls console unhandled cell List.length repeat map].
    rewrite <- app_assoc. reflexivity.
Qed.

Lemma cleanup_run (s : St Helpers Rpc) :
  cleanup s
  = (Normal (Promise_all (repeat Pending (List.length (filesToDelete (this s))))),
     mkSt (this s)
          (calls s ++ map (delete_call (this s)) (filesToDelete (this s)))
          (console s) (unhandled s) (cell s)).
Proof.
  unfold cleanup. unfold bind at 1. cbn [get_this].
  unfold bind. rewrite cleanup_issue_map. reflexivity.
Qed.

End HelpersState.

Section HelpersFrame.
Variable remote : Rpc -> Reply.

(** [createTestPresentation] always returns a promise; the list grows by
    the identifier exactly when that promise is fulfilled. *)
Lemma createTestPresentation_tracks (s : St Helpers Rpc) :
  exists p s',
    createTestPresentation remote s = (Normal p, s') /\
    same_services (this s) (this s') /\
    filesToDelete (this s') =
      match p with
      | Fulfilled id => filesToDelete (this s) ++ [id]
      | _ => filesToDelete (this s)
      end.
Proof.
  run_cases; do 2 eexists; (split; [reflexivity|]);
    cbn; auto with helpers.
Qed.

Lemma createTestSpreadsheet_tracks (s : St Helpers Rpc) :
  exists p s',
    createTestSpreadsheet remote s = (Normal p, s') /\
    same_services (this s) (this s') /\
    filesToDelete (this s') =
      match p with
      | Fulfilled id => filesToDelete (this s) ++ [id]
      | _ => filesToDelete (this s)
      end.
Proof.
  run_cases; do 2 eexists; (split; [reflexivity|]);
    cbn; auto with helpers.
Qed.

(** The methods built on [batchUpdate] return a promise and leave the
    helper object as it was. *)
Lemma createTestTextbox_frame (presentationId pageObjectId : Val)
    (s : St Helpers Rpc) :
  exists p s',
    createTestTextbox remote presentationId pageObjectId s = (Normal p, s') /\
    this s' = this s.
Proof. run_cases; do 2 eexists; split; reflexivity. Qed.

Lemma createTestSheetsChart_frame
    (presentationId pageId spreadsheetId sheetChartId : Val)
    (s : St Helpers Rpc) :
  exists p s',
    createTestSheetsChart remote presentationId pageId spreadsheetId
                          sheetChartId s = (Normal p, s') /\
    this s' = this s.
Proof. run_cases; do 2 eexists; split; reflexivity. Qed.

Lemma populateValues_frame (spreadsheetId : Val) (s : St Helpers Rpc) :
  exists p s',
    populateValues remote spreadsheetId s = (Normal p, s') /\
    this s' = this s.
Proof. run_cases; do 2 eexists; split; reflexivity. Qed.

End HelpersFrame.

(* ================================================================== *)
(** ** The loop of [addSlides] *)
(* ================================================================== *)

Section AddSlidesLoop.
Variable predefinedLayout : Val.

Lemma slide_ids_length (n : nat) : List.length (slide_ids n) = n.
Proof. unfold slide_ids. now rewrite length_map, length_seq. Qed.

Lemma slide_requests_length (n : nat) :
  List.length (slide_requests predefinedLayout n) = n.
Proof. unfold slide_requests. now rewrite length_map, length_seq. Qed.

Lemma slide_ids_S (n : nat) : slide_ids (S n) = slide_ids n ++ [slide_id n].
Proof. unfold slide_ids. now rewrite seq_S, map_app. Qed.

Lemma slide_requests_S (n : nat) :
  slide_requests predefinedLayout (S n)
  = slide_requests predefinedLayout n
    ++ [createSlide_request predefinedLayout n].
Proof. unfold slide_requests. now rewrite seq_S, map_app. Qed.

(** [slideIds[i]] right after the push of iteration [i]. *)
Lemma slide_ids_last (n : nat) :
  nth_error (slide_ids n ++ [slide_id n]) n = Some (slide_id n).
Proof.
  rewrite nth_error_app2; rewrite slide_ids_length; [|lia].
  now rewrite Nat.sub_diag.
Qed.

(** The guard [i < num] holds exactly for the counters below [num]
    rounded up. *)
Lemma less_than_slide_count (i : nat) (num : Number) :
  less_than i num = true <-> (i < slide_count num)%nat.
Proof.
  destruct num as [q| |]; cbn [less_than slide_count];
    [|split; [discriminate|lia] ..].
  rewrite negb_true_iff, <- not_true_iff_false, Qle_bool_iff.
  split.
  - intros H. apply Qnot_le_lt in H.
    assert (Hlt : Z.of_nat i < Qceiling q).
    { rewrite Zlt_Qlt.
      apply Qlt_le_trans with q; [exact H|apply Qle_ceiling]. }
    lia.
  - intros H Hle.
    apply (Qlt_not_le _ _ (Qceiling_lt q)).
    apply Qle_trans with (inject_Z (Z.of_nat i)); [exact Hle|].
    rewrite <- Zle_Qle. lia.
Qed.

(** The fuel [addSlides] supplies covers every test of the guard. *)
Lemma slide_count_below_fuel (num : Number) :
  (slide_count num < addSlides_fuel num)%nat.
Proof.
  destruct num as [q| |]; cbn [slide_count addSlides_fuel]; [|lia ..].
  assert (H : Qceiling q <= Z.max 0 (Qnum q)).
  { rewrite <- (Qceiling_Z (Z.max 0 (Qnum q))).
    apply Qceiling_resp_le. destruct q as [n d].
    unfold Qle. cbn [Qnum Qden inject_Z].
    pose proof (Pos2Z.is_pos d). nia. }
  lia.
Qed.

(** Entered at counter [i] with the identifiers and requests of the
    first [i] iterations, the loop ends, on its guard, with those of all
    [slide_count num] iterations, as soon as the fuel covers the tests
    left. *)
Lemma addSlides_loop_from (fuel i : nat) (num : Number) :
  (i <= slide_count num)%nat -> (slide_count num < i + fuel)%nat ->
  addSlides_loop fuel i num predefinedLayout
                 (slide_ids i) (slide_requests predefinedLayout i)
  = Some (slide_ids (slide_count num),
          slide_requests predefinedLayout (slide_count num)).
Proof.
  revert i. induction fuel as [|fuel IH]; intros i Hle Hfuel; [lia|].
  cbn [addSlides_loop].
  destruct (less_than i num) eqn:Hguard.
  - apply less_than_slide_count in Hguard.
    rewrite slide_ids_last. cbn [of_option].
    fold (slide_id i). fold (createSlide_request predefinedLayout i).
    rewrite <- slide_ids_S, <- slide_requests_S.
    apply IH; lia.
  - assert (Hn : ~ (i < slide_count num)%nat).
    { intros H. apply less_than_slide_count in H. congruence. }
    replace i with (slide_count num) by lia. reflexivity.
Qed.

(** With too little fuel the loop is still running: it is the guard, not
    the fuel, that ends it. *)
Lemma addSlides_loop_still_running (fuel i : nat) (num : Number)
    (slideIds requests : list Val) :
  (i + fuel <= slide_count num)%nat ->
  addSlides_loop fuel i num predefinedLayout slideIds requests = None.
Proof.
  revert i slideIds requests.
  induction fuel as [|fuel IH]; intros i slideIds requests H; [reflexivity|].
  cbn [addSlides_loop].
  assert (Hguard : less_than i num = true)
    by (apply less_than_slide_count; lia).
  rewrite Hguard. apply IH. lia.
Qed.

(** The loop as [addSlides] runs it, and with any larger fuel. *)
Lemma addSlides_loop_run (num : Number) (extra : nat) :
  addSlides_loop (addSlides_fuel num + extra) 0 num predefinedLayout [] []
  = Some (slide_ids (slide_count num),
          slide_requests predefinedLayout (slide_count num)).
Proof.
  apply (addSlides_loop_from _ 0 num); [lia|].
  pose proof (slide_count_below_fuel num). lia.
Qed.

End AddSlidesLoop.

(** [addSlides] returns a promise and leaves the helper object as it
    was. *)
Lemma addSlides_frame (remote : Rpc -> Reply) (presentationId : Val)
    (num : Number) (predefinedLayout : Val) (s : St Helpers Rpc) :
  exists p s',
    addSlides remote presentationId num predefinedLayout s = (Normal p, s') /\
    this s' = this s.
Proof.
  pose proof (addSlides_loop_run predefinedLayout num 0) as L.
  rewrite Nat.add_0_r in L.
  unfold addSlides, new_Promise. rewrite L.
  run_cases; do 2 eexists; split; reflexivity.
Qed.

(* ================================================================== *)
(** ** One call per method, its answer, its errors *)
(* ================================================================== *)

(** Rewrites with the answer of the remote side and finishes the run. *)
Ltac answer H :=
  run_method; rewrite H;
  cbn [this calls console unhandled cell set_cell log_call log_unhandled
       fst snd truthy].

Section OneCall.
Variables (s : St Helpers Rpc).

(** [createTestPresentation] *)
Lemma createTestPresentation_call :
  let c := presentations_create (slidesService (this s))
                                (Obj [("title", Str "Test Preso")]) in
  issues_only createTestPresentation s c /\
  rejects_with_error_received createTestPresentation s c /\
  resolves_with_field createTestPresentation s c
                      [field "data"; field "presentationId"].
Proof.
  cbv zeta. split; [|split].
  - intros remote. run_cases; reflexivity.
  - intros remote n m H. answer H. reflexivity.
  - intros remote res v H. cbn [read].
    answer H. repeat split_match; intros [= <-] || discriminate.
    reflexivity.
Qed.

Lemma createTestPresentation_tracks_created :
  tracks_created createTestPresentation s
    (presentations_create (slidesService (this s))
                          (Obj [("title", Str "Test Preso")]))
    [field "data"; field "presentationId"].
Proof.
  intros remote res id H. cbn [read]. answer H.
  repeat split_match; intros [= <-] || discriminate. reflexivity.
Qed.

(** [addSlides] *)
Lemma addSlides_call (presentationId : Val) (num : Number)
    (predefinedLayout : Val) :
  let m := fun remote =>
             addSlides remote presentationId num predefinedLayout in
  let c := presentations_batchUpdate (slidesService (this s))
             (Obj [("presentationId", presentationId);
                   ("resource",
                    Obj [("requests",
                          Arr (slide_requests predefinedLayout
                                              (slide_count num)))])]) in
  issues_only m s c /\
  rejects_with_error_received m s c /\
  forall remote res,
    remote c = Success res ->
    m remote s
    = (Normal (Fulfilled (Arr (slide_ids (slide_count num)))),
       mkSt (this s) (calls s ++ [c]) (console s) (unhandled s) (cell s)).
Proof.
  pose proof (addSlides_loop_run predefinedLayout num 0) as L.
  rewrite Nat.add_0_r in L.
  cbv zeta. split; [|split].
  - intros remote. unfold addSlides, new_Promise. rewrite L.
    run_cases; reflexivity.
  - intros remote n m H. unfold addSlides, new_Promise. rewrite L.
    answer H. reflexivity.
  - intros remote res H. unfold addSlides, new_Promise. rewrite L.
    answer H. reflexivity.
Qed.

(** [createTestTextbox] *)
Lemma createTestTextbox_call (presentationId pageObjectId : Val) :
  let m := fun remote =>
             createTestTextbox remote presentationId pageObjectId in
  exists c,
    issues_only m s c /\
    service c = slidesService (this s) /\
    method c = "presentations.batchUpdate" /\
    rejects_with_error_received m s c /\
    resolves_with_field m s c
      [field "data"; field "replies"; index 0; field "createShape";
       field "objectId"].
Proof.
  cbv zeta. eexists. split; [|split; [|split; [|split]]].
  - intros remote. run_cases; reflexivity.
  - reflexivity.
  - reflexivity.
  - intros remote n m H. answer H. reflexivity.
  - intros remote res v H. cbn [read].
    answer H. repeat split_match; intros [= <-] || discriminate.
    reflexivity.
Qed.

(** [createTestSheetsChart] *)
Lemma createTestSheetsChart_call
    (presentationId pageId spreadsheetId sheetChartId : Val) :
  let m := fun remote =>
             createTestSheetsChart remote presentationId pageId
                                   spreadsheetId sheetChartId in
  exists c,
    issues_only m s c /\
    service c = slidesService (this s) /\
    method c = "presentations.batchUpdate" /\
    rejects_with_error_received m s c /\
    resolves_with_field m s c
      [field "data"; field "replies"; index 0; field "createSheetsChart";
       field "objectId"].
Proof.
  cbv zeta. eexists. split; [|split; [|split; [|split]]].
  - intros remote. run_cases; reflexivity.
  - reflexivity.
  - reflexivity.
  - intros remote n m H. answer H. reflexivity.
  - intros remote res v H. cbn [read].
    answer H. repeat split_match; intros [= <-] || discriminate.
    reflexivity.
Qed.

(** [createTestSpreadsheet] *)
Lemma createTestSpreadsheet_call :
  let c := spreadsheets_create (sheetsService (this s))
             (Obj [("resource",
                    Obj [("properties",
                          Obj [("title", Str "Test Spreadsheet")])]);
                   ("fields", Str "spreadsheetId")]) in
  issues_only createTestSpreadsheet s c /\
  rejects_with_error_received createTestSpreadsheet s c /\
  resolves_with_field createTestSpreadsheet s c
                      [field "data"; field "spreadsheetId"].
Proof.
  cbv zeta. split; [|split].
  - intros remote. run_cases; reflexivity.
  - intros remote n m H. answer H. reflexivity.
  - intros remote res v H. cbn [read].
    answer H. repeat split_match; intros [= <-] || discriminate.
    reflexivity.
Qed.

Lemma createTestSpreadsheet_tracks_created :
  tracks_created createTestSpreadsheet s
    (spreadsheets_create (sheetsService (this s))
       (Obj [("resource",
              Obj [("properties",
                    Obj [("title", Str "Test Spreadsheet")])]);
             ("fields", Str "spreadsheetId")]))
    [field "data"; field "spreadsheetId"].
Proof.
  intros remote res id H. cbn [read]. answer H.
  repeat split_match; intros [= <-] || discriminate. reflexivity.
Qed.

(** [populateValues] *)
Lemma populateValues_call (spreadsheetId : Val) :
  let m := fun remote => populateValues remote spreadsheetId in
  let c := spreadsheets_batchUpdate (sheetsService (this s))
             (Obj [("spreadsheetId", spreadsheetId);
                   ("resource",
                    Obj [("requests",
                          Arr [Obj [("repeatCell",
                            Obj [("range",
                                  Obj [("sheetId", Num 0);
                                       ("startRowIndex", Num 0);
                                       ("endRowIndex", Num 15);
                                       ("startColumnIndex", Num 0);
                                       ("endColumnIndex", Num 15)]);
                                 ("cell",
                                  Obj [("userEnteredValue",
                                        Obj [("stringValue", Str "Hello")])]);
                                 ("fields", Str "userEnteredValue")])]])])]) in
  issues_only m s c /\
  rejects_with_error_received m s c /\
  forall remote res,
    remote c = Success res ->
    m remote s
    = (Normal (Fulfilled spreadsheetId),
       mkSt (this s) (calls s ++ [c]) (console s) (unhandled s) (cell s)).
Proof.
  cbv zeta. split; [|split].
  - intros remote. run_cases; reflexivity.
  - intros remote n m H. answer H. reflexivity.
  - intros remote res H. answer H. reflexivity.
Qed.

End OneCall.


(** C1.  The list [filesToDelete] is the only part of a [Helpers] object
    that ever changes.  It is empty in a freshly constructed helper.
    Each of the two methods that create a resource
    ([createTestPresentation] through [presentations.create],
    [createTestSpreadsheet] through [spreadsheets.create]) issues its
    create call, and when that call succeeds with a response carrying
    the identifier ([data.presentationId], [data.spreadsheetId]) the
    promise is fulfilled with the identifier and the list becomes the old
    list with the identifier appended; when the call fails the promise is
    rejected and the helper is unchanged.  In every run, the list grows
    by the identifier exactly when the promise of the method is fulfilled
    with it and is unchanged otherwise.  No method assigns a service
    field, and [cleanup] and the methods built on [batchUpdate] leave the
    whole object unchanged. *)
Theorem filesToDelete_only_state :
  filesToDelete constructor = [] /\
  (forall s : St Helpers Rpc,
     (exists c,
        method c = "presentations.create" /\
        issues_only createTestPresentation s c /\
        tracks_created createTestPresentation s c
                       [field "data"; field "presentationId"] /\
        rejects_with_error_received createTestPresentation s c) /\
     (exists c,
        method c = "spreadsheets.create" /\
        issues_only createTestSpreadsheet s c /\
        tracks_created createTestSpreadsheet s c
                       [field "data"; field "spreadsheetId"] /\
        rejects_with_error_received createTestSpreadsheet s c)) /\
  forall (remote : Rpc -> Reply) (s : St Helpers Rpc),
    (exists p s',
       createTestPresentation remote s = (Normal p, s') /\
       same_services (this s) (this s') /\
       filesToDelete (this s') =
         match p with
         | Fulfilled id => filesToDelete (this s) ++ [id]
         | _ => filesToDelete (this s)
         end) /\
    (exists p s',
       createTestSpreadsheet remote s = (Normal p, s') /\
       same_services (this s) (this s') /\
       filesToDelete (this s') =
         match p with
         | Fulfilled id => filesToDelete (this s) ++ [id]
         | _ => filesToDelete (this s)
         end) /\
    same_services (this s) (this (snd (reset s))) /\
    (forall id, same_services (this s) (this (snd (deleteFileOnCleanup id s)))) /\
    this (snd (cleanup s)) = this s /\
    (forall presentationId num predefinedLayout,
       this (snd (addSlides remote presentationId num predefinedLayout s))
       = this s) /\
    (forall presentationId pageObjectId,
       this (snd (createTestTextbox remote presentationId pageObjectId s))
       = this s) /\
    (forall presentationId pageId spreadsheetId sheetChartId,
       this (snd (createTestSheetsChart remote presentationId pageId
                                        spreadsheetId sheetChartId s))
       = this s) /\
    (forall spreadsheetId,
       this (snd (populateValues remote spreadsheetId s)) = this s).
Proof.
  split; [reflexivity|]. split.
  { intros s. split.
    - eexists. split; [|split; [apply createTestPresentation_call|]].
      + reflexivity.
      + split; [apply createTestPresentation_tracks_created|].
        apply createTestPresentation_call.
    - eexists. split; [|split; [apply createTestSpreadsheet_call|]].
      + reflexivity.
      + split; [apply createTestSpreadsheet_tracks_created|].
        apply createTestSpreadsheet_call. }
  intros remote s.
  split; [apply createTestPresentation_tracks|].
  split; [apply createTestSpreadsheet_tracks|].
  split; [cbn; auto with helpers|].
  split; [intros id; cbn; auto with helpers|].
  split; [now rewrite cleanup_run|].
  split.
  { intros pid num layout.
    destruct (addSlides_frame remote pid num layout s) as (p & s' & E & F).
    now rewrite E. }
  split.
  { intros pid page.
    destruct (createTestTextbox_frame remote pid page s) as (p & s' & E & F).
    now rewrite E. }
  split.
  { intros pid page sid cid.
    destruct (createTestSheetsChart_frame remote pid page sid cid s)
      as (p & s' & E & F).
    now rewrite E. }
  intros sid.
  destruct (populateValues_frame remote sid s) as (p & s' & E & F).
  now rewrite E.
Qed.

(** A presentation and then a spreadsheet are created on a fresh helper;
    a failed creation leaves the list of a helper with two files as it
    was. *)
Lemma filesToDelete_only_state_witness :
  filesToDelete
    (this (snd (createTestPresentation backend_ok (start constructor))))
  = [Str "presentation_1"] /\
  filesToDelete
    (this (snd (createTestSpreadsheet backend_ok
                  (snd (createTestPresentation backend_ok
                                               (start constructor))))))
  = [Str "presentation_1"; Str "spreadsheet_1"] /\
  createTestPresentation backend_error two_files
  = (Normal (Rejected (Err "Error" "backend error")),
     mkSt (this two_files)
          [presentations_create (slidesService constructor)
                                (Obj [("title", Str "Test Preso")])]
          [] [] Pending).
Proof.
  destruct filesToDelete_only_state as (_ & H & _).
  destruct (H (start constructor)) as ((c1 & _ & _ & T1 & _) & _).
  pose proof (T1 backend_ok _ _ eq_refl eq_refl) as E1.
  split; [now rewrite E1|].
  destruct (H (snd (createTestPresentation backend_ok (start constructor))))
    as (_ & (c2 & _ & _ & T2 & _)).
  pose proof (T2 backend_ok _ _ eq_refl eq_refl) as E2.
  split; [now rewrite E2|].
  destruct (H two_files) as ((c3 & _ & I3 & _ & R3) & _).
  pose proof (I3 backend_error) as C3. cbn in C3. injection C3 as <-.
  exact (R3 backend_error _ _ eq_refl).
Defined.

(** C9.  [reset] and [deleteFileOnCleanup] change nothing but the field
    [filesToDelete]: from every state both return normally, the fields
    [driveService], [slidesService] and [sheetsService] keep their
    values, no remote call is issued and nothing is printed; [reset]
    leaves the list empty and [deleteFileOnCleanup id] leaves it equal to
    its previous value followed by [id]. *)
Theorem reset_deleteFileOnCleanup_frame (s : St Helpers Rpc) (id : Val) :
  let r := snd (reset s) in
  let d := snd (deleteFileOnCleanup id s) in
  (fst (reset s) = Normal tt /\
   driveService (this r) = driveService (this s) /\
   slidesService (this r) = slidesService (this s) /\
   sheetsService (this r) = sheetsService (this s) /\
   filesToDelete (this r) = [] /\
   calls r = calls s /\ console r = console s) /\
  (fst (deleteFileOnCleanup id s) = Normal tt /\
   driveService (this d) = driveService (this s) /\
   slidesService (this d) = slidesService (this s) /\
   sheetsService (this d) = sheetsService (this s) /\
   filesToDelete (this d) = filesToDelete (this s) ++ [id] /\
   calls d = calls s /\ console d = console s).
Proof. cbn. repeat split. Qed.

(** C3, as stated, fails: on a helper that tracks two identifiers,
    [cleanup] leaves the list as it was, not empty. *)
Lemma cleanup_does_not_drain :
  ~ (filesToDelete (this (snd (reset two_files))) = [] /\
     filesToDelete (this (snd (cleanup two_files))) = []).
Proof. cbn. intros [_ H]. discriminate H. Qed.

(** C3, amended.  [reset] leaves the list empty.  [cleanup] reads the
    list and leaves the helper object, the list included, unchanged: the
    identifiers stay tracked, a second [cleanup] issues the same delete
    calls once more, and only [reset] removes them (a [cleanup] after a
    [reset] issues no call). *)
Theorem reset_drains_cleanup_keeps (s : St Helpers Rpc) :
  let deletes := map (delete_call (this s)) (filesToDelete (this s)) in
  filesToDelete (this (snd (reset s))) = [] /\
  this (snd (cleanup s)) = this s /\
  filesToDelete (this (snd (cleanup s))) = filesToDelete (this s) /\
  calls (snd (cleanup s)) = calls s ++ deletes /\
  calls (snd (cleanup (snd (cleanup s)))) = (calls s ++ deletes) ++ deletes /\
  calls (snd (cleanup (snd (reset s)))) = calls s.
Proof.
  cbv zeta. rewrite !cleanup_run. cbn.
  repeat split. now rewrite app_nil_r.
Qed.

(* ================================================================== *)
(** ** Properties of [Promise.all] *)
(* ================================================================== *)

Section ArrayAssignment.

Lemma assign_state_length (l : list PState) (i : nat) (p : PState) :
  List.length (assign_state i p l) = List.length l.
Proof.
  revert i; induction l as [|x l IH]; intros [|i]; cbn; auto.
Qed.

Lemma assign_length (l : list Val) (i : nat) (v : Val) :
  List.length (assign i v l) = List.length l.
Proof.
  revert i; induction l as [|x l IH]; intros [|i]; cbn; auto.
Qed.

Lemma assign_state_same (l : list PState) (i : nat) (p q : PState) :
  nth_error l i = Some q -> nth_error (assign_state i p l) i = Some p.
Proof.
  revert i; induction l as [|x l IH]; intros [|i]; cbn; try discriminate; auto.
Qed.

Lemma assign_state_other (l : list PState) (i k : nat) (p : PState) :
  k <> i -> nth_error (assign_state i p l) k = nth_error l k.
Proof.
  revert i k; induction l as [|x l IH]; intros [|i] [|k] Hk; cbn;
    try reflexivity; try congruence.
  apply IH. congruence.
Qed.

Lemma assign_same (l : list Val) (i : nat) (v : Val) :
  (i < List.length l)%nat -> nth_error (assign i v l) i = Some v.
Proof.
  revert i; induction l as [|x l IH]; intros [|i]; cbn; try lia; auto.
  intros H. apply IH. lia.
Qed.

Lemma assign_other (l : list Val) (i k : nat) (v : Val) :
  k <> i -> nth_error (assign i v l) k = nth_error l k.
Proof.
  revert i k; induction l as [|x l IH]; intros [|i] [|k] Hk; cbn;
    try reflexivity; try congruence.
  apply IH. congruence.
Qed.

Lemma unfulfilled_cons (x : PState) (l : list PState) :
  unfulfilled (x :: l)
  = ((if is_fulfilled x then 0 else 1) + unfulfilled l)%nat.
Proof. unfold unfulfilled. cbn. destruct (is_fulfilled x); reflexivity. Qed.

Lemma unfulfilled_fulfil (l : list PState) (i : nat) (v : Val) :
  nth_error l i = Some Pending ->
  S (unfulfilled (assign_state i (Fulfilled v) l)) = unfulfilled l.
Proof.
  revert i; induction l as [|x l IH]; intros [|i]; cbn [nth_error assign_state];
    try discriminate.
  - intros [= ->]. now rewrite !unfulfilled_cons.
  - intros H. rewrite !unfulfilled_cons, <- (IH i H). lia.
Qed.

Lemma unfulfilled_reject (l : list PState) (i : nat) (e : Val) :
  nth_error l i = Some Pending ->
  unfulfilled (assign_state i (Rejected e) l) = unfulfilled l.
Proof.
  revert i; induction l as [|x l IH]; intros [|i]; cbn [nth_error assign_state];
    try discriminate.
  - intros [= ->]. now rewrite !unfulfilled_cons.
  - intros H. now rewrite !unfulfilled_cons, (IH i H).
Qed.

Lemma unfulfilled_zero (l : list PState) :
  unfulfilled l = 0%nat <-> forallb is_fulfilled l = true.
Proof.
  induction l as [|x l IH]; [now cbn|].
  rewrite unfulfilled_cons. cbn [forallb].
  destruct (is_fulfilled x); cbn; [exact IH|]. split; [lia|discriminate].
Qed.

(** An entry other than the overwritten one stays in the array. *)
Lemma assign_state_keeps (l : list PState) (i : nat) (p q old : PState) :
  nth_error l i = Some old -> q <> old -> In q l ->
  In q (assign_state i p l).
Proof.
  intros Hi Hq Hin. apply In_nth_error in Hin as [k Hk].
  apply nth_error_In with k.
  rewrite assign_state_other; [exact Hk|].
  intros ->. congruence.
Qed.

(** An entry of the updated array is the new one or an old one. *)
Lemma assign_state_In (l : list PState) (i : nat) (p q : PState) :
  In q (assign_state i p l) -> q = p \/ In q l.
Proof.
  revert i; induction l as [|x l IH]; intros [|i]; cbn; try tauto.
  - intros [H|H]; auto.
  - intros [H|H]; auto. destruct (IH i H); auto.
Qed.

End ArrayAssignment.

Section JointInvariant.

Lemma unfulfilled_repeat_pending (n : nat) :
  unfulfilled (repeat Pending n) = n.
Proof.
  induction n as [|n IH]; [reflexivity|].
  cbn [repeat]. rewrite unfulfilled_cons, IH. reflexivity.
Qed.

Lemma Promise_all_inv (n : nat) : joint_inv (Promise_all (repeat Pending n)).
Proof.
  unfold Promise_all, joint_inv. rewrite !repeat_length.
  cbn [inputs args remaining result].
  rewrite !repeat_length, unfulfilled_repeat_pending.
  split; [reflexivity|]. split; [reflexivity|]. split.
  - intros i v H. apply nth_error_In, repeat_spec in H. discriminate.
  - destruct n; cbn; [now split|]. split; [discriminate|].
    intros e [H|H]; [discriminate|]. apply repeat_spec in H. discriminate.
Qed.

Lemma deliver_inv (j : Joint) (ev : nat * Reply) :
  joint_inv j -> joint_inv (deliver j ev).
Proof.
  destruct ev as [i r]. intros (Hlen & Hrem & Hargs & Hres).
  unfold deliver.
  destruct (nth_error (inputs j) i) as [[| |]|] eqn:Hi;
    try (repeat split; assumption).
  destruct r as [v|n m|]; try (repeat split; assumption).
  - (* the i-th input is fulfilled with v *)
    pose proof (unfulfilled_fulfil _ _ v Hi) as Hcount.
    assert (Hlt : (i < List.length (args j))%nat).
    { rewrite Hlen. apply nth_error_Some. congruence. }
    unfold joint_inv; cbn [inputs args remaining result].
    rewrite assign_length, assign_state_length.
    split; [assumption|]. split; [lia|]. split.
    + intros k w Hk. destruct (Nat.eq_dec k i) as [->|Hne].
      * rewrite (assign_state_same _ _ _ _ Hi) in Hk.
        injection Hk as <-. now apply assign_same.
      * rewrite assign_state_other in Hk by assumption.
        rewrite assign_other by assumption. now apply Hargs.
    + destruct (result j) as [|x|e].
      * destruct Hres as [Hpos Hnone].
        destruct (Nat.pred (remaining j)) eqn:Hp.
        -- split; reflexivity.
        -- split; [discriminate|]. intros e He.
           apply assign_state_In in He as [He|He]; [discriminate|].
           exact (Hnone e He).
      * destruct Hres as [Hzero _]. lia.
      * apply assign_state_keeps with Pending; [assumption|discriminate|assumption].
  - (* the i-th input is rejected *)
    pose proof (unfulfilled_reject _ _ (Err n m) Hi) as Hcount.
    unfold joint_inv; cbn [inputs args remaining result].
    rewrite assign_state_length.
    split; [assumption|]. split; [congruence|]. split.
    + intros k w Hk. destruct (Nat.eq_dec k i) as [->|Hne].
      * rewrite (assign_state_same _ _ _ _ Hi) in Hk. discriminate.
      * rewrite assign_state_other in Hk by assumption. now apply Hargs.
    + destruct (result j) as [|x|e].
      * apply nth_error_In with i. now apply assign_state_same with Pending.
      * assumption.
      * apply assign_state_keeps with Pending; [assumption|discriminate|assumption].
Qed.

Lemma deliver_all_inv (schedule : list (nat * Reply)) (j : Joint) :
  joint_inv j -> joint_inv (deliver_all j schedule).
Proof.
  revert j. induction schedule as [|ev schedule IH]; intros j H; [exact H|].
  cbn. apply IH. now apply deliver_inv.
Qed.

(** The array of values, once every input is fulfilled. *)
Lemma args_of_fulfilled (ps : list PState) (vs : list Val) :
  List.length vs = List.length ps ->
  forallb is_fulfilled ps = true ->
  (forall i v, nth_error ps i = Some (Fulfilled v) ->
               nth_error vs i = Some v) ->
  vs = map value_of ps.
Proof.
  revert vs. induction ps as [|p ps IH]; intros [|v vs] Hlen Hall Hnth;
    try discriminate; [reflexivity|].
  cbn in Hall. apply andb_prop in Hall as [Hp Hall].
  destruct p as [|w|e]; try discriminate.
  cbn [map value_of]. f_equal.
  - specialize (Hnth 0%nat w eq_refl). now injection Hnth.
  - apply IH; [now injection Hlen|assumption|].
    intros i x Hi. exact (Hnth (S i) x Hi).
Qed.

(** Consequences of the invariant for the three states of the result. *)
Lemma joint_inv_fulfilled (j : Joint) (x : Val) :
  joint_inv j -> result j = Fulfilled x ->
  forallb is_fulfilled (inputs j) = true /\
  x = Arr (map value_of (inputs j)).
Proof.
  intros (Hlen & Hrem & Hargs & Hres) Hx. rewrite Hx in Hres.
  destruct Hres as [Hzero ->].
  assert (Hall : forallb is_fulfilled (inputs j) = true).
  { apply unfulfilled_zero. congruence. }
  split; [assumption|]. f_equal. now apply args_of_fulfilled.
Qed.

Lemma joint_inv_rejected (j : Joint) (e : Val) :
  joint_inv j -> result j = Rejected e -> In (Rejected e) (inputs j).
Proof. intros (_ & _ & _ & Hres) He. now rewrite He in Hres. Qed.

Lemma forallb_fulfilled_not_rejected (ps : list PState) (e : Val) :
  forallb is_fulfilled ps = true -> ~ In (Rejected e) ps.
Proof.
  intros Hall Hin. rewrite forallb_forall in Hall.
  specialize (Hall _ Hin). discriminate.
Qed.

Lemma joint_inv_all_fulfilled (j : Joint) :
  joint_inv j -> forallb is_fulfilled (inputs j) = true ->
  result j = Fulfilled (Arr (map value_of (inputs j))).
Proof.
  intros Hinv Hall. pose proof Hinv as (Hlen & Hrem & Hargs & Hres).
  destruct (result j) as [|x|e] eqn:Hr.
  - destruct Hres as [Hpos _]. apply unfulfilled_zero in Hall. congruence.
  - f_equal. now apply (joint_inv_fulfilled j x Hinv).
  - now apply forallb_fulfilled_not_rejected with (e := e) in Hall.
Qed.

(** Where the state of an input comes from: it is as before, or an
    answer of the schedule put it there. *)
Lemma deliver_all_provenance (schedule : list (nat * Reply)) (j : Joint)
    (i : nat) (q : PState) :
  nth_error (inputs (deliver_all j schedule)) i = Some q ->
  nth_error (inputs j) i = Some q \/
  exists r, In (i, r) schedule /\ q = state_of_reply r.
Proof.
  revert j. induction schedule as [|[k r] schedule IH]; intros j H;
    [now left|].
  cbn in H. apply IH in H as [H|(r' & Hin & ->)].
  - unfold deliver in H.
    destruct (nth_error (inputs j) k) as [[| |]|] eqn:Hk; auto.
    destruct r as [v|n m|]; auto; cbn [inputs] in H.
    + destruct (Nat.eq_dec i k) as [->|Hne].
      * rewrite (assign_state_same _ _ _ _ Hk) in H. injection H as <-.
        right. exists (Success v). split; [now left|reflexivity].
      * rewrite assign_state_other in H by assumption. now left.
    + destruct (Nat.eq_dec i k) as [->|Hne].
      * rewrite (assign_state_same _ _ _ _ Hk) in H. injection H as <-.
        right. exists (Failure n m). split; [now left|reflexivity].
      * rewrite assign_state_other in H by assumption. now left.
  - right. exists r'. split; [now right|reflexivity].
Qed.

End JointInvariant.

Section Delivery.

Lemma deliver_inputs_length (j : Joint) (ev : nat * Reply) :
  List.length (inputs (deliver j ev)) = List.length (inputs j).
Proof.
  destruct ev as [i r]. unfold deliver.
  destruct (nth_error (inputs j) i) as [[| |]|]; try reflexivity.
  destruct r; cbn [inputs]; try reflexivity; apply assign_state_length.
Qed.

Lemma deliver_all_inputs_length (schedule : list (nat * Reply)) (j : Joint) :
  List.length (inputs (deliver_all j schedule)) = List.length (inputs j).
Proof.
  revert j. induction schedule as [|ev schedule IH]; intros j; [reflexivity|].
  cbn. unfold deliver_all in IH. now rewrite IH, deliver_inputs_length.
Qed.

(** A settled result is never replaced. *)
Lemma deliver_result_stable (j : Joint) (ev : nat * Reply) :
  is_pending (result j) = false -> result (deliver j ev) = result j.
Proof.
  destruct ev as [i r]. unfold deliver. intros H.
  destruct (nth_error (inputs j) i) as [[| |]|]; try reflexivity.
  destruct r; cbn [result]; try reflexivity;
    destruct (result j); try discriminate; reflexivity.
Qed.

Lemma deliver_all_result_stable (schedule : list (nat * Reply)) (j : Joint) :
  is_pending (result j) = false -> result (deliver_all j schedule) = result j.
Proof.
  revert j. induction schedule as [|ev schedule IH]; intros j H; [reflexivity|].
  cbn. unfold deliver_all in IH. rewrite IH.
  - now apply deliver_result_stable.
  - now rewrite deliver_result_stable.
Qed.

(** A settled input is never replaced. *)
Lemma deliver_keeps_settled (j : Joint) (ev : nat * Reply) (i : nat)
    (q : PState) :
  nth_error (inputs j) i = Some q -> q <> Pending ->
  nth_error (inputs (deliver j ev)) i = Some q.
Proof.
  destruct ev as [k r]. unfold deliver. intros Hi Hq.
  destruct (nth_error (inputs j) k) as [[| |]|] eqn:Hk; try assumption.
  assert (Hne : i <> k) by (intros ->; congruence).
  destruct r; cbn [inputs]; try assumption;
    now rewrite assign_state_other.
Qed.

Lemma deliver_all_keeps_settled (schedule : list (nat * Reply)) (j : Joint)
    (i : nat) (q : PState) :
  nth_error (inputs j) i = Some q -> q <> Pending ->
  nth_error (inputs (deliver_all j schedule)) i = Some q.
Proof.
  revert j. induction schedule as [|ev schedule IH]; intros j Hi Hq;
    [assumption|].
  cbn. apply IH; [|assumption]. now apply deliver_keeps_settled.
Qed.

(** An input that was answered is settled. *)
Lemma delivered_is_settled (schedule : list (nat * Reply)) (j : Joint)
    (i : nat) (r : Reply) :
  In (i, r) schedule -> r <> NoReply ->
  (i < List.length (inputs j))%nat ->
  exists q, nth_error (inputs (deliver_all j schedule)) i = Some q /\
            q <> Pending.
Proof.
  revert j. induction schedule as [|ev schedule IH]; intros j Hin Hr Hlt;
    [destruct Hin|].
  destruct Hin as [->|Hin].
  - cbn [deliver_all fold_left].
    assert (H : exists q, nth_error (inputs (deliver j (i, r))) i = Some q /\
                          q <> Pending).
    { destruct (nth_error (inputs j) i) as [q0|] eqn:Hi;
        [|apply nth_error_None in Hi; lia].
      unfold deliver. rewrite Hi.
      destruct q0 as [|v|e].
      - destruct r as [v|n m|]; [| |congruence]; cbn [inputs];
          eexists; (split; [eapply assign_state_same; eassumption|]);
          discriminate.
      - exists (Fulfilled v). split; [assumption|discriminate].
      - exists (Rejected e). split; [assumption|discriminate]. }
    destruct H as (q & Hq & Hne). exists q. split; [|assumption].
    now apply deliver_all_keeps_settled.
  - cbn. apply (IH (deliver j ev)); try assumption.
    now rewrite deliver_inputs_length.
Qed.

(** As soon as an input is rejected the result is rejected. *)
Lemma rejected_input_rejects (j : Joint) (e : Val) :
  joint_inv j -> In (Rejected e) (inputs j) ->
  exists e', result j = Rejected e' /\ In (Rejected e') (inputs j).
Proof.
  intros Hinv Hin. pose proof Hinv as (_ & Hrem & _ & Hres).
  destruct (result j) as [|x|e'] eqn:Hr.
  - destruct Hres as [_ Hnone]. now destruct (Hnone e).
  - destruct Hres as [Hzero _].
    assert (Hall : forallb is_fulfilled (inputs j) = true)
      by (apply unfulfilled_zero; congruence).
    now apply forallb_fulfilled_not_rejected with (e := e) in Hall.
  - now exists e'.
Qed.

(** The first error to arrive is the reason of the rejection. *)
Lemma first_error_rejects (n : nat) (before after : list (nat * Reply))
    (i : nat) (name message : string) :
  (i < n)%nat -> quiet_before i before ->
  result (deliver_all (Promise_all (repeat Pending n))
                      (before ++ (i, Failure name message) :: after))
  = Rejected (Err name message).
Proof.
  intros Hi Hquiet. set (j0 := Promise_all (repeat Pending n)).
  unfold deliver_all. rewrite fold_left_app. cbn [fold_left].
  fold (deliver_all j0 before). set (j1 := deliver_all j0 before).
  assert (Hinv : joint_inv j1) by apply deliver_all_inv, Promise_all_inv.
  assert (Hlen : List.length (inputs j1) = n).
  { unfold j1. rewrite deliver_all_inputs_length. cbn. apply repeat_length. }
  assert (Hpend : nth_error (inputs j1) i = Some Pending).
  { destruct (nth_error (inputs j1) i) as [q|] eqn:Hq;
      [|apply nth_error_None in Hq; lia].
    f_equal.
    apply deliver_all_provenance in Hq as [Hq|(r & Hr & ->)].
    - cbn in Hq. now apply nth_error_In, repeat_spec in Hq.
    - specialize (Hquiet i r Hr). destruct r; cbn; tauto. }
  assert (Hres : result j1 = Pending).
  { destruct (result j1) as [|x|e] eqn:Hr; [reflexivity| |].
    - apply (joint_inv_fulfilled j1 x Hinv) in Hr as [Hall _].
      rewrite forallb_forall in Hall.
      specialize (Hall Pending (nth_error_In _ _ Hpend)). discriminate.
    - apply (joint_inv_rejected j1 e Hinv) in Hr.
      apply In_nth_error in Hr as [k Hk].
      apply deliver_all_provenance in Hk as [Hk|(r & Hr & Hs)].
      + cbn in Hk. apply nth_error_In, repeat_spec in Hk. discriminate.
      + specialize (Hquiet k r Hr). destruct r; try discriminate. tauto. }
  fold (deliver_all (deliver j1 (i, Failure name message)) after).
  rewrite deliver_all_result_stable;
    unfold deliver; rewrite Hpend; cbn [result]; now rewrite Hres.
Qed.

End Delivery.

(* ================================================================== *)
(** ** [cleanup] *)
(* ================================================================== *)

(** C2, as stated, fails: with two tracked files, when the first delete
    call is answered by an error the promise of [cleanup] is rejected
    while the second delete call is still pending. *)
Lemma cleanup_rejects_before_all_settle :
  exists j,
    cleanup_promise two_files [(0%nat, Failure "Error" "backend error")]
    = Some j /\
    result j = Rejected (Err "Error" "backend error") /\
    nth_error (inputs j) 1 = Some Pending /\
    ~ settles_after_all j.
Proof.
  eexists. split; [reflexivity|]. cbn.
  split; [reflexivity|]. split; [reflexivity|].
  intros H. specialize (H eq_refl). discriminate H.
Qed.

(** C2, amended.  From every state, [cleanup] issues exactly one
    [files.delete] call per element of [filesToDelete], in list order,
    each with that element as [fileId], all before any answer arrives.
    Whatever the order of the answers: the promise it returns is
    fulfilled only when every delete call has been fulfilled (then with
    the array of their values), and it is fulfilled as soon as they all
    are; it is rejected as soon as one delete call is rejected, without
    waiting for the calls still pending, and its reason is then the
    error of the first delete call to be rejected. *)
Theorem cleanup_one_delete_per_identifier
    (s : St Helpers Rpc) (schedule : list (nat * Reply)) :
  exists j0,
    fst (cleanup s) = Normal j0 /\
    calls (snd (cleanup s))
    = calls s ++ map (delete_call (this s)) (filesToDelete (this s)) /\
    inputs j0 = repeat Pending (List.length (filesToDelete (this s))) /\
    cleanup_promise s schedule = Some (deliver_all j0 schedule) /\
    (forall x, result (deliver_all j0 schedule) = Fulfilled x ->
       forallb is_fulfilled (inputs (deliver_all j0 schedule)) = true /\
       x = Arr (map value_of (inputs (deliver_all j0 schedule)))) /\
    (forallb is_fulfilled (inputs (deliver_all j0 schedule)) = true ->
       result (deliver_all j0 schedule)
       = Fulfilled (Arr (map value_of (inputs (deliver_all j0 schedule))))) /\
    (forall e, result (deliver_all j0 schedule) = Rejected e ->
       In (Rejected e) (inputs (deliver_all j0 schedule))) /\
    (forall e, In (Rejected e) (inputs (deliver_all j0 schedule)) ->
       exists e', result (deliver_all j0 schedule) = Rejected e' /\
                  In (Rejected e') (inputs (deliver_all j0 schedule))) /\
    (forall before after i name message,
       schedule = before ++ (i, Failure name message) :: after ->
       (i < List.length (filesToDelete (this s)))%nat ->
       quiet_before i before ->
       result (deliver_all j0 schedule) = Rejected (Err name message)).
Proof.
  unfold cleanup_promise. rewrite cleanup_run. cbn [fst snd].
  set (n := List.length (filesToDelete (this s))).
  assert (Hinv : joint_inv (deliver_all (Promise_all (repeat Pending n)) schedule))
    by apply deliver_all_inv, Promise_all_inv.
  eexists. split; [reflexivity|]. split; [reflexivity|].
  split; [reflexivity|]. split; [reflexivity|].
  split; [|split; [|split; [|split]]].
  - intros x. now apply joint_inv_fulfilled.
  - now apply joint_inv_all_fulfilled.
  - intros e. now apply joint_inv_rejected.
  - intros e. now apply rejected_input_rejects.
  - intros before after i name message -> Hi Hquiet.
    now apply first_error_rejects.
Qed.

(** Two tracked files.  With the second delete answered before the
    first, both successfully: two delete calls, and the promise fulfilled
    with both values in list order.  With the second delete answered by
    an error while the first is still pending: the promise is rejected
    with that error. *)
Lemma cleanup_one_delete_per_identifier_witness :
  calls (snd (cleanup two_files))
  = [delete_call constructor (Str "file_1");
     delete_call constructor (Str "file_2")] /\
  exists j0,
    fst (cleanup two_files) = Normal j0 /\
    result (deliver_all j0 [(1%nat, Success (Str "gone_2"));
                            (0%nat, Success (Str "gone_1"))])
    = Fulfilled (Arr [Str "gone_1"; Str "gone_2"]) /\
    result (deliver_all j0 [(1%nat, Failure "Error" "not found")])
    = Rejected (Err "Error" "not found").
Proof.
  destruct (cleanup_one_delete_per_identifier two_files
              [(1%nat, Success (Str "gone_2")); (0%nat, Success (Str "gone_1"))])
    as (j0 & Hj0 & Hcalls & _ & _ & _ & Hall & _).
  destruct (cleanup_one_delete_per_identifier two_files
              [(1%nat, Failure "Error" "not found")])
    as (j1 & Hj1 & _ & _ & _ & _ & _ & _ & _ & Hfirst).
  split; [exact Hcalls|].
  exists j0. split; [exact Hj0|].
  cbn in Hj0, Hj1. injection Hj0 as <-. injection Hj1 as <-.
  split; [exact (Hall eq_refl)|].
  apply (Hfirst [] [] 1%nat "Error" "not found" eq_refl).
  - cbn. lia.
  - intros k r [].
Defined.

(* ================================================================== *)
(** ** The Chat script *)
(* ================================================================== *)

Section ChatScript.
Context {ChatClient : Type}.
Variable createClientWithUserCredentials :
  list string -> Chat.ClientResult ChatClient.
Variable remote : Chat.Rpc ChatClient -> Reply.
Variable s : St unit (Chat.Rpc ChatClient).

(** Every run of the script, by what the client factory and the remote
    side answer. *)
Lemma script_run :
  Chat.script createClientWithUserCredentials remote s
  = match createClientWithUserCredentials Chat.USER_AUTH_OAUTH_SCOPES with
    | Chat.Client c =>
        let call := Chat.updateMembership c Chat.update_request in
        match remote call with
        | Success response =>
            (Normal (Fulfilled Undefined),
             mkSt (this s) (calls s ++ [call])
                  (console s ++ [console_log response])
                  (unhandled s) (cell s))
        | Failure n m =>
            (Normal (Fulfilled Undefined),
             mkSt (this s) (calls s ++ [call])
                  (console s ++ [console_error (Err n m)])
                  (unhandled s) (cell s))
        | NoReply =>
            (Normal Pending,
             mkSt (this s) (calls s ++ [call]) (console s)
                  (unhandled s) (cell s))
        end
    | Chat.ClientError n m =>
        (Normal (Fulfilled Undefined),
         mkSt (this s) (calls s) (console s ++ [console_error (Err n m)])
              (unhandled s) (cell s))
    | Chat.NoClient => (Normal Pending, s)
    end.
Proof.
  unfold Chat.script, Chat.main, Chat.await_client, async, call_promise,
    await, catch_, print, bind, ret, throw, log_call.
  destruct (createClientWithUserCredentials _) as [c|n m|];
    cbn [this calls console unhandled cell].
  - destruct (remote _) as [r|n m|]; reflexivity.
  - reflexivity.
  - reflexivity.
Qed.

End ChatScript.

(* ================================================================== *)
(** ** Errors *)
(* ================================================================== *)

(** A rejection of the promise of [cleanup] carries the error of a delete
    call that failed. *)
Lemma cleanup_rejection_provenance (s : St Helpers Rpc)
    (schedule : list (nat * Reply)) (j : Joint) (e : Val) :
  cleanup_promise s schedule = Some j -> result j = Rejected e ->
  exists i name message,
    In (i, Failure name message) schedule /\ e = Err name message.
Proof.
  unfold cleanup_promise. rewrite cleanup_run. cbn [fst].
  intros [= <-] He.
  apply joint_inv_rejected in He;
    [|apply deliver_all_inv, Promise_all_inv].
  apply In_nth_error in He as [i Hi].
  apply deliver_all_provenance in Hi as [Hi|(r & Hin & Hr)].
  - cbn [Promise_all inputs] in Hi.
    apply nth_error_In, repeat_spec in Hi. discriminate.
  - destruct r as [v|n m|]; try discriminate.
    injection Hr as ->. now exists i, n, m.
Qed.

(** C4.  A failed remote call is neither classified nor transformed nor
    retried.  For each convenience method of [Helpers] there is one call
    such that, when the remote side answers it with an error, the promise
    of the method is rejected with exactly that error, that call is the
    only one issued and the helper is unchanged.  In [cleanup], when a
    delete call is answered by an error before any other delete call
    was, the promise is rejected with exactly that error, whatever else
    arrives, and the delete calls issued are one per tracked identifier,
    none repeated; and whenever the promise of [cleanup] is rejected its
    reason is exactly the error that answered one of the delete calls.
    In the Chat script, when [updateMembership]
    fails the promise of [main] is rejected with exactly that error and
    the top level prints it with [console.error]; one call was issued and
    nothing else was printed. *)
Theorem errors_reach_the_caller_unchanged :
  (forall s : St Helpers Rpc,
     (exists c, method c = "presentations.create" /\
                rejects_with_error_received createTestPresentation s c) /\
     (forall presentationId num predefinedLayout,
        exists c, method c = "presentations.batchUpdate" /\
                  rejects_with_error_received
                    (fun remote => addSlides remote presentationId num
                                             predefinedLayout) s c) /\
     (forall presentationId pageObjectId,
        exists c, method c = "presentations.batchUpdate" /\
                  rejects_with_error_received
                    (fun remote => createTestTextbox remote presentationId
                                                     pageObjectId) s c) /\
     (forall presentationId pageId spreadsheetId sheetChartId,
        exists c, method c = "presentations.batchUpdate" /\
                  rejects_with_error_received
                    (fun remote => createTestSheetsChart remote presentationId
                                     pageId spreadsheetId sheetChartId) s c) /\
     (exists c, method c = "spreadsheets.create" /\
                rejects_with_error_received createTestSpreadsheet s c) /\
     (forall spreadsheetId,
        exists c, method c = "spreadsheets.batchUpdate" /\
                  rejects_with_error_received
                    (fun remote => populateValues remote spreadsheetId) s c) /\
     (forall schedule j e,
        cleanup_promise s schedule = Some j -> result j = Rejected e ->
        exists i name message,
          In (i, Failure name message) schedule /\ e = Err name message) /\
     (forall before after i name message,
        (i < List.length (filesToDelete (this s)))%nat ->
        quiet_before i before ->
        exists j,
          cleanup_promise s (before ++ (i, Failure name message) :: after)
          = Some j /\
          result j = Rejected (Err name message) /\
          calls (snd (cleanup s))
          = calls s ++ map (delete_call (this s)) (filesToDelete (this s)))) /\
  (forall (ChatClient : Type)
          (createClientWithUserCredentials :
             list string -> Chat.ClientResult ChatClient)
          (remote : Chat.Rpc ChatClient -> Reply)
          (s : St unit (Chat.Rpc ChatClient))
          (c : ChatClient) (name message : string),
     createClientWithUserCredentials Chat.USER_AUTH_OAUTH_SCOPES
     = Chat.Client c ->
     remote (Chat.updateMembership c Chat.update_request)
     = Failure name message ->
     fst (Chat.main createClientWithUserCredentials remote s)
     = Normal (Rejected (Err name message)) /\
     Chat.script createClientWithUserCredentials remote s
     = (Normal (Fulfilled Undefined),
        mkSt (this s)
             (calls s ++ [Chat.updateMembership c Chat.update_request])
             (console s ++ [console_error (Err name message)])
             (unhandled s) (cell s))).
Proof.
  split.
  - intros s.
    split; [eexists; split; [|apply createTestPresentation_call]; reflexivity|].
    split.
    { intros pid num layout. eexists.
      split; [|apply (addSlides_call s pid num layout)]; reflexivity. }
    split.
    { intros pid page.
      destruct (createTestTextbox_call s pid page) as (c & _ & _ & Hm & Hr & _).
      now exists c. }
    split.
    { intros pid page sid cid.
      destruct (createTestSheetsChart_call s pid page sid cid)
        as (c & _ & _ & Hm & Hr & _).
      now exists c. }
    split; [eexists; split; [|apply createTestSpreadsheet_call]; reflexivity|].
    split.
    { intros sid. eexists.
      split; [|apply (populateValues_call s sid)]; reflexivity. }
    split; [intros schedule j e; apply cleanup_rejection_provenance|].
    intros before after i name message Hi Hquiet.
    unfold cleanup_promise. rewrite cleanup_run. cbn [fst snd calls].
    eexists. split; [reflexivity|]. split; [|reflexivity].
    now apply first_error_rejects.
  - intros ChatClient createClient remote s c n m Hc Hr. split.
    + unfold Chat.main, Chat.await_client, async, call_promise, await, bind,
        ret, throw.
      rewrite Hc. fold Chat.update_request. now rewrite Hr.
    + rewrite script_run, Hc. cbv zeta. now rewrite Hr.
Qed.

(** A remote side that fails every call: [createTestPresentation] is
    rejected with that error, [cleanup] of two files is rejected with
    the error of the delete that failed, and the Chat script prints the
    error. *)
Lemma errors_reach_the_caller_unchanged_witness :
  fst (createTestPresentation backend_error (start constructor))
  = Normal (Rejected (Err "Error" "backend error")) /\
  (exists j,
     cleanup_promise two_files
       [(1%nat, Failure "Error" "not found"); (0%nat, Success Null)]
     = Some j /\
     result j = Rejected (Err "Error" "not found")) /\
  Chat.script Chat.client_ready (fun _ => Failure "Error" "backend error")
              Chat.start
  = (Normal (Fulfilled Undefined),
     mkSt tt [Chat.updateMembership "chat-client" Chat.update_request]
          [console_error (Err "Error" "backend error")] [] Pending).
Proof.
  destruct errors_reach_the_caller_unchanged as [Hhelpers Hchat]. split.
  - destruct (Hhelpers (start constructor)) as [(c & _ & H) _].
    now rewrite (H backend_error "Error" "backend error" eq_refl).
  - split.
    + destruct (Hhelpers two_files) as (_ & _ & _ & _ & _ & _ & _ & Hfirst).
      destruct (Hfirst [] [(0%nat, Success Null)] 1%nat "Error" "not found")
        as (j & Hj & Hr & _).
      * cbn. lia.
      * intros k r [].
      * exists j. split; [exact Hj|exact Hr].
    + exact (proj2 (Hchat string Chat.client_ready
                          (fun _ => Failure "Error" "backend error")
                          Chat.start "chat-client" "Error" "backend error"
                          eq_refl eq_refl)).
Defined.

(* ================================================================== *)
(** ** One remote call per invocation *)
(* ================================================================== *)



(* ================================================================== *)
(** ** Results *)
(* ================================================================== *)

(** C6, as stated, fails: a [create] call that succeeds with a response
    that has no [data] is not resolved with anything;
    [createTestPresentation] stays pending and [createTestSpreadsheet]
    is rejected with the [TypeError] of the property access. *)
Lemma successful_call_without_data_is_not_resolved :
  fst (createTestPresentation (fun _ => Success (Obj [])) (start constructor))
  = Normal Pending /\
  fst (createTestSpreadsheet (fun _ => Success (Obj [])) (start constructor))
  = Normal (Rejected TypeError).
Proof. split; reflexivity. Qed.

(** C6, amended.  After a successful remote call whose response can be
    read at the field path of the method, the result is the value found
    there: with [c] the one call the method issues, if the remote side
    answers [c] with a response that can be read at
    [data.presentationId] ([createTestPresentation]),
    [data.spreadsheetId] ([createTestSpreadsheet]),
    [data.replies[0].createShape.objectId] ([createTestTextbox]) or
    [data.replies[0].createSheetsChart.objectId]
    ([createTestSheetsChart]), the promise of the method is fulfilled with
    that value.  The Chat script prints with [console.log] the value the
    [updateMembership] promise was fulfilled with, and nothing else. *)
Theorem results_read_at_field_paths :
  (forall s : St Helpers Rpc,
     (exists c, issues_only createTestPresentation s c /\
                resolves_with_field createTestPresentation s c
                  [field "data"; field "presentationId"]) /\
     (exists c, issues_only createTestSpreadsheet s c /\
                resolves_with_field createTestSpreadsheet s c
                  [field "data"; field "spreadsheetId"]) /\
     (forall presentationId pageObjectId,
        let m := fun remote =>
                   createTestTextbox remote presentationId pageObjectId in
        exists c, issues_only m s c /\
                  resolves_with_field m s c
                    [field "data"; field "replies"; index 0;
                     field "createShape"; field "objectId"]) /\
     (forall presentationId pageId spreadsheetId sheetChartId,
        let m := fun remote =>
                   createTestSheetsChart remote presentationId pageId
                                         spreadsheetId sheetChartId in
        exists c, issues_only m s c /\
                  resolves_with_field m s c
                    [field "data"; field "replies"; index 0;
                     field "createSheetsChart"; field "objectId"])) /\
  (forall (ChatClient : Type)
          (createClientWithUserCredentials :
             list string -> Chat.ClientResult ChatClient)
          (remote : Chat.Rpc ChatClient -> Reply)
          (s : St unit (Chat.Rpc ChatClient))
          (c : ChatClient) (response : Val),
     createClientWithUserCredentials Chat.USER_AUTH_OAUTH_SCOPES
     = Chat.Client c ->
     remote (Chat.updateMembership c Chat.update_request)
     = Success response ->
     console (snd (Chat.script createClientWithUserCredentials remote s))
     = console s ++ [console_log response]).
Proof.
  split.
  - intros s.
    split; [eexists; split; apply createTestPresentation_call|].
    split; [eexists; split; apply createTestSpreadsheet_call|].
    split.
    + intros pid page m.
      destruct (createTestTextbox_call s pid page) as (c & Hi & _ & _ & _ & Hr).
      now exists c.
    + intros pid page sid cid m.
      destruct (createTestSheetsChart_call s pid page sid cid)
        as (c & Hi & _ & _ & _ & Hr).
      now exists c.
  - intros ChatClient createClient remote s c response Hc Hr.
    rewrite script_run, Hc. cbv zeta. now rewrite Hr.
Qed.

(** A remote side whose responses carry the fields read. *)
Lemma results_read_at_field_paths_witness :
  fst (createTestPresentation backend_ok (start constructor))
  = Normal (Fulfilled (Str "presentation_1")) /\
  fst (createTestSpreadsheet backend_ok (start constructor))
  = Normal (Fulfilled (Str "spreadsheet_1")) /\
  fst (createTestTextbox backend_ok (Str "presentation_1") (Str "slide_0")
                         (start constructor))
  = Normal (Fulfilled (Str "MyTextBox_01")) /\
  console (snd (Chat.script Chat.client_ready
                            (fun _ => Success (Str "membership")) Chat.start))
  = [console_log (Str "membership")].
Proof.
  destruct results_read_at_field_paths as [Hhelpers Hchat].
  destruct (Hhelpers (start constructor)) as ((c1 & _ & H1) & (c2 & _ & H2) & H3 & _).
  destruct (H3 (Str "presentation_1") (Str "slide_0")) as (c3 & _ & H4).
  split; [exact (H1 backend_ok _ _ eq_refl eq_refl)|].
  split; [exact (H2 backend_ok _ _ eq_refl eq_refl)|].
  split; [exact (H4 backend_ok _ _ eq_refl eq_refl)|].
  exact (Hchat string Chat.client_ready (fun _ => Success (Str "membership"))
               Chat.start "chat-client" (Str "membership") eq_refl eq_refl).
Defined.

(* ================================================================== *)
(** ** Request payloads *)
(* ================================================================== *)

(** C7.  Whenever the Chat script has its client, the one call it issues
    is [updateMembership] on that client with the request built in
    [main], passed as built: an object with exactly the fields
    [membership] and [updateMask], where [membership] has exactly the
    fields [name] and [role] and [updateMask] has exactly the field
    [paths], equal to the one-element list [['role']]. *)
Theorem updateMembership_request_fields
    (ChatClient : Type)
    (createClientWithUserCredentials :
       list string -> Chat.ClientResult ChatClient)
    (remote : Chat.Rpc ChatClient -> Reply)
    (s : St unit (Chat.Rpc ChatClient)) (c : ChatClient) :
  createClientWithUserCredentials Chat.USER_AUTH_OAUTH_SCOPES = Chat.Client c ->
  exists request membership updateMask,
    calls (snd (Chat.script createClientWithUserCredentials remote s))
    = calls s ++ [Chat.updateMembership c request] /\
    field_names request = ["membership"; "updateMask"]%string /\
    read request [field "membership"] = Some membership /\
    field_names membership = ["name"; "role"]%string /\
    read membership [field "name"]
    = Some (Str "spaces/SPACE_NAME/members/MEMBER_NAME") /\
    read membership [field "role"] = Some (Str "ROLE_NAME") /\
    read request [field "updateMask"] = Some updateMask /\
    field_names updateMask = ["paths"]%string /\
    read updateMask [field "paths"] = Some (Arr [Str "role"]).
Proof.
  intros Hc. do 3 eexists. split.
  - rewrite script_run, Hc. cbv zeta.
    destruct (remote _); reflexivity.
  - cbn. repeat split; reflexivity.
Qed.

(** The script with a client at hand. *)
Lemma updateMembership_request_fields_witness :
  exists request,
    calls (snd (Chat.script Chat.client_ready (fun _ => NoReply) Chat.start))
    = [Chat.updateMembership "chat-client" request] /\
    read request [field "updateMask"; field "paths"] = Some (Arr [Str "role"]).
Proof.
  destruct (updateMembership_request_fields string Chat.client_ready
              (fun _ => NoReply) Chat.start "chat-client" eq_refl)
    as (request & membership & updateMask & Hcalls & _ & _ & _ & _ & _
        & Hmask & _ & Hpaths).
  exists request. split; [exact Hcalls|].
  cbn [read] in *. destruct (get request "updateMask"); try discriminate.
  injection Hmask as ->. exact Hpaths.
Defined.

Section AddSlides.
Variables (s : St Helpers Rpc) (presentationId : Val) (num : Number)
          (predefinedLayout : Val).

(** A fulfilled [addSlides] carries the identifiers fixed by [num]. *)
Lemma addSlides_fulfilled_value (remote : Rpc -> Reply) (ids : Val) :
  fst (addSlides remote presentationId num predefinedLayout s)
  = Normal (Fulfilled ids) ->
  ids = Arr (slide_ids (slide_count num)).
Proof.
  pose proof (addSlides_loop_run predefinedLayout num 0) as L.
  rewrite Nat.add_0_r in L.
  unfold addSlides, new_Promise. rewrite L.
  run_cases; intros [= <-] || discriminate. reflexivity.
Qed.

Lemma slide_ids_nth (n i : nat) :
  (i < n)%nat -> nth_error (slide_ids n) i = Some (slide_id i).
Proof.
  intros H. unfold slide_ids.
  rewrite nth_error_map, nth_error_nth' with (d := 0%nat);
    rewrite ?length_seq; [|assumption].
  now rewrite seq_nth.
Qed.

Lemma slide_requests_nth (n i : nat) :
  (i < n)%nat ->
  nth_error (slide_requests predefinedLayout n) i
  = Some (createSlide_request predefinedLayout i).
Proof.
  intros H. unfold slide_requests.
  rewrite nth_error_map, nth_error_nth' with (d := 0%nat);
    rewrite ?length_seq; [|assumption].
  now rewrite seq_nth.
Qed.

End AddSlides.

(** The number of slides for an integer [num >= 0] is [num]. *)
Lemma slide_count_integer (z : Z) :
  0 <= z -> Z.of_nat (slide_count (Finite (inject_Z z))) = z.
Proof. intros H. cbn [slide_count]. rewrite Qceiling_Z. lia. Qed.

(** C8, as stated, fails for a [num] that is not an integer: with
    [num = 2.5] the guard [i < num] holds for [i = 0, 1, 2], so that
    [addSlides] builds three requests, not [num] of them, and is
    fulfilled with three identifiers. *)
Lemma addSlides_rounds_a_fraction_up :
  calls (snd (addSlides backend_ok (Str "presentation_1") (Finite (5 # 2))
                        (Str "BLANK") (start constructor)))
  = [presentations_batchUpdate (slidesService constructor)
       (Obj [("presentationId", Str "presentation_1");
             ("resource",
              Obj [("requests",
                    Arr [createSlide_request (Str "BLANK") 0;
                         createSlide_request (Str "BLANK") 1;
                         createSlide_request (Str "BLANK") 2])])])] /\
  fst (addSlides backend_ok (Str "presentation_1") (Finite (5 # 2))
                 (Str "BLANK") (start constructor))
  = Normal (Fulfilled (Arr [Str "slide_0"; Str "slide_1"; Str "slide_2"])) /\
  ~ (inject_Z 3 == 5 # 2)%Q.
Proof.
  split; [reflexivity|]. split; [reflexivity|]. intros H. discriminate H.
Qed.

(** C8, amended.  For every [presentationId], every [num] that is a
    finite number, [NaN] or [-Infinity], and every [predefinedLayout],
    [addSlides] sends one [batchUpdate] whose [requests] are exactly
    [n] [createSlide] requests, where [n] is [num] rounded up to an
    integer ([0] when [num] is not positive, and [num] itself when [num]
    is an integer [>= 0]); the [i]-th request has the [objectId]
    [slide_] followed by [i] and the given layout, for [i] from [0] to
    [n - 1] in order; when the call succeeds the promise is fulfilled
    with exactly the list of those [n] identifiers; and two fulfilled
    invocations with the same [num] carry the same list, whatever the
    helper, the presentation, the layout and the responses. *)
Theorem addSlides_identifiers
    (s : St Helpers Rpc) (presentationId : Val) (num : Number)
    (predefinedLayout : Val) :
  let n := slide_count num in
  let m := fun remote =>
             addSlides remote presentationId num predefinedLayout in
  let requests := slide_requests predefinedLayout n in
  let c := presentations_batchUpdate (slidesService (this s))
             (Obj [("presentationId", presentationId);
                   ("resource", Obj [("requests", Arr requests)])]) in
  issues_only m s c /\
  List.length requests = n /\
  List.length (slide_ids n) = n /\
  (forall q, num = Finite q -> Z.of_nat n = Z.max 0 (Qceiling q)) /\
  (forall z, 0 <= z -> num = Finite (inject_Z z) -> Z.of_nat n = z) /\
  (not_positive num -> n = 0%nat) /\
  (forall i, (i < n)%nat ->
     nth_error requests i
     = Some (Obj [("createSlide",
                   Obj [("objectId", Str ("slide_" ++ decimal i));
                        ("slideLayoutReference",
                         Obj [("predefinedLayout", predefinedLayout)])])]) /\
     nth_error (slide_ids n) i = Some (Str ("slide_" ++ decimal i))) /\
  (forall remote res,
     remote c = Success res ->
     fst (m remote s) = Normal (Fulfilled (Arr (slide_ids n)))) /\
  (forall remote remote' s' presentationId' predefinedLayout' ids ids',
     fst (m remote s) = Normal (Fulfilled ids) ->
     fst (addSlides remote' presentationId' num predefinedLayout' s')
     = Normal (Fulfilled ids') ->
     ids = ids').
Proof.
  intros n m requests c.
  destruct (addSlides_call s presentationId num predefinedLayout)
    as (Hissue & _ & Hok).
  split; [exact Hissue|].
  split; [apply slide_requests_length|].
  split; [apply slide_ids_length|].
  split; [intros q ->; unfold n; cbn [slide_count]; lia|].
  split; [intros z Hz ->; now apply slide_count_integer|].
  split.
  { unfold n. destruct num as [q| |]; cbn [not_positive slide_count];
      try reflexivity.
    intros Hq. apply Qceiling_resp_le in Hq.
    change (Qceiling 0) with 0 in Hq. lia. }
  split; [|split].
  - intros i Hi. split.
    + now apply slide_requests_nth.
    + now apply slide_ids_nth.
  - intros remote res H. unfold m. now rewrite (Hok remote res H).
  - intros remote remote' s' pid' layout' ids ids' H H'.
    apply addSlides_fulfilled_value in H, H'. congruence.
Qed.

(** Three slides for [num = 3], and three for [num = 2.5]. *)
Lemma addSlides_identifiers_witness :
  calls (snd (addSlides backend_ok (Str "presentation_1") (Finite 3)
                        (Str "BLANK") (start constructor)))
  = [presentations_batchUpdate (slidesService constructor)
       (Obj [("presentationId", Str "presentation_1");
             ("resource",
              Obj [("requests",
                    Arr (slide_requests (Str "BLANK") 3))])])] /\
  fst (addSlides backend_ok (Str "presentation_1") (Finite 3) (Str "BLANK")
                 (start constructor))
  = Normal (Fulfilled (Arr [Str "slide_0"; Str "slide_1"; Str "slide_2"])) /\
  Z.of_nat (slide_count (Finite 3)) = 3 /\
  Z.of_nat (slide_count (Finite (5 # 2))) = 3.
Proof.
  destruct (addSlides_identifiers (start constructor) (Str "presentation_1")
              (Finite 3) (Str "BLANK"))
    as (Hissue & _ & _ & _ & Hint & _ & _ & Hok & _).
  destruct (addSlides_identifiers (start constructor) (Str "presentation_1")
              (Finite (5 # 2)) (Str "BLANK"))
    as (_ & _ & _ & Hceil & _).
  split; [exact (Hissue backend_ok)|].
  split; [exact (Hok backend_ok _ eq_refl)|].
  split; [exact (Hint 3 ltac:(lia) eq_refl)|].
  exact (Hceil (5 # 2)%Q eq_refl).
Defined.

(** C10.  For every [spreadsheetId], [populateValues] issues a single
    [spreadsheets.batchUpdate] for that spreadsheet whose [requests] hold
    exactly one request, a [repeatCell] whose range is sheet 0, rows 0 to
    15 and columns 0 to 15 (15 by 15 cells; the comment above the method
    speaks of an 11 by 11 grid), whose cell value is the string [Hello]
    and whose [fields] is [userEnteredValue]; when the call succeeds the
    promise is fulfilled with the [spreadsheetId] it was given. *)
Theorem populateValues_request (s : St Helpers Rpc) (spreadsheetId : Val) :
  let m := fun remote => populateValues remote spreadsheetId in
  exists c request,
    issues_only m s c /\
    service c = sheetsService (this s) /\
    method c = "spreadsheets.batchUpdate" /\
    field_names (params c) = ["spreadsheetId"; "resource"]%string /\
    read (params c) [field "spreadsheetId"] = Some spreadsheetId /\
    read (params c) [field "resource"; field "requests"]
    = Some (Arr [request]) /\
    field_names request = ["repeatCell"]%string /\
    read request [field "repeatCell"; field "range"]
    = Some (Obj [("sheetId", Num 0);
                 ("startRowIndex", Num 0);
                 ("endRowIndex", Num 15);
                 ("startColumnIndex", Num 0);
                 ("endColumnIndex", Num 15)]) /\
    read request [field "repeatCell"; field "cell"]
    = Some (Obj [("userEnteredValue", Obj [("stringValue", Str "Hello")])]) /\
    read request [field "repeatCell"; field "fields"]
    = Some (Str "userEnteredValue") /\
    (forall remote res,
       remote c = Success res ->
       fst (m remote s) = Normal (Fulfilled spreadsheetId)).
Proof.
  intros m.
  destruct (populateValues_call s spreadsheetId) as (Hissue & _ & Hok).
  do 2 eexists. split; [exact Hissue|].
  do 9 (split; [reflexivity|]).
  intros remote res H. unfold m. now rewrite (Hok remote res H).
Qed.

(** A successful [populateValues]. *)
Lemma populateValues_request_witness :
  fst (populateValues backend_ok (Str "spreadsheet_1") (start constructor))
  = Normal (Fulfilled (Str "spreadsheet_1")).
Proof.
  destruct (populateValues_request (start constructor) (Str "spreadsheet_1"))
    as (c & request & Hissue & _ & _ & _ & _ & _ & _ & _ & _ & _ & Hok).
  exact (Hok backend_ok _ eq_refl).
Defined.


(* ================================================================== *)
(** ** Further properties: responses without the expected fields *)
(* ================================================================== *)

Lemma get_throws (v : Val) (k : string) (e : Val) :
  get v k = Throw e -> e = TypeError.
Proof. destruct v; cbn; intros H; try discriminate; now injection H. Qed.

Lemma get_index_throws (v : Val) (i : nat) (e : Val) :
  get_index v i = Throw e -> e = TypeError.
Proof. destruct v; cbn; intros H; try discriminate; now injection H. Qed.

Lemma get_not_suspend (v : Val) (k : string) : get v k <> Suspend.
Proof. destruct v; cbn; discriminate. Qed.

Lemma get_index_not_suspend (v : Val) (i : nat) : get_index v i <> Suspend.
Proof. destruct v; cbn; discriminate. Qed.

(** A property access either gives a value or throws [TypeError]. *)
Ltac access_outcome :=
  match goal with
  | H : get _ _ = Throw _ |- _ => apply get_throws in H; subst
  | H : get_index _ _ = Throw _ |- _ => apply get_index_throws in H; subst
  | H : get _ _ = Suspend |- _ => exfalso; exact (get_not_suspend _ _ H)
  | H : get_index _ _ = Suspend |- _ =>
      exfalso; exact (get_index_not_suspend _ _ H)
  end.

(** X1.  In the three methods that read the response inside a Node-style
    callback ([createTestPresentation], [createTestTextbox],
    [createTestSheetsChart]), a successful answer on which reading the
    path throws (the response, or an object on the way to the last key,
    is [undefined] or [null]) makes the callback throw a [TypeError]
    that nothing catches: the promise of the method is neither fulfilled
    nor rejected, the helper (the tracked list included) is unchanged,
    and the one call was issued. *)
Theorem callback_methods_hang_without_field (s : St Helpers Rpc) :
  (exists c, issues_only createTestPresentation s c /\
             hangs_without_field createTestPresentation s c
               [field "data"; field "presentationId"]) /\
  (forall presentationId pageObjectId,
     let m := fun remote =>
                createTestTextbox remote presentationId pageObjectId in
     exists c, issues_only m s c /\
               hangs_without_field m s c
                 [field "data"; field "replies"; index 0;
                  field "createShape"; field "objectId"]) /\
  (forall presentationId pageId spreadsheetId sheetChartId,
     let m := fun remote =>
                createTestSheetsChart remote presentationId pageId
                                      spreadsheetId sheetChartId in
     exists c, issues_only m s c /\
               hangs_without_field m s c
                 [field "data"; field "replies"; index 0;
                  field "createSheetsChart"; field "objectId"]).
Proof.
  split; [|split].
  - eexists. split; [apply createTestPresentation_call|].
    intros remote res H. cbn [read]. answer H.
    repeat split_match; intros Hnone; try discriminate;
      repeat access_outcome; reflexivity.
  - intros pid page m. subst m. eexists. split.
    + intros remote. run_cases; reflexivity.
    + intros remote res H. cbn [read]. answer H.
      repeat split_match; intros Hnone; try discriminate;
        repeat access_outcome; reflexivity.
  - intros pid page sid cid m. subst m. eexists. split.
    + intros remote. run_cases; reflexivity.
    + intros remote res H. cbn [read]. answer H.
      repeat split_match; intros Hnone; try discriminate;
        repeat access_outcome; reflexivity.
Qed.

(** A response without [data]. *)
Lemma callback_methods_hang_without_field_witness :
  createTestPresentation (fun _ => Success (Obj [])) (start constructor)
  = (Normal Pending,
     mkSt constructor
          [presentations_create (slidesService constructor)
                                (Obj [("title", Str "Test Preso")])]
          [] [TypeError] Pending).
Proof.
  destruct (callback_methods_hang_without_field (start constructor))
    as ((c & Hi & H) & _).
  pose proof (Hi (fun _ => Success (Obj []))) as Hc.
  cbn in Hc. injection Hc as <-.
  exact (H (fun _ => Success (Obj [])) (Obj []) eq_refl eq_refl).
Defined.

(** X2.  [createTestSpreadsheet] reads the answer in a [then] callback.
    When its call succeeds with a response on which reading
    [data.spreadsheetId] throws (the response or its [data] is
    [undefined] or [null]), the promise is rejected with the [TypeError]
    of the property access (it does not stay pending), nothing is tracked
    and one call was issued. *)
Theorem createTestSpreadsheet_rejects_without_field
    (remote : Rpc -> Reply) (s : St Helpers Rpc) (res : Val) :
  let c := spreadsheets_create (sheetsService (this s))
             (Obj [("resource",
                    Obj [("properties",
                          Obj [("title", Str "Test Spreadsheet")])]);
                   ("fields", Str "spreadsheetId")]) in
  remote c = Success res ->
  read res [field "data"; field "spreadsheetId"] = None ->
  createTestSpreadsheet remote s
  = (Normal (Rejected TypeError),
     mkSt (this s) (calls s ++ [c]) (console s) (unhandled s) (cell s)).
Proof.
  intros c H. subst c. cbn [read]. answer H.
  repeat split_match; intros Hnone; try discriminate;
    repeat access_outcome; reflexivity.
Qed.

Lemma createTestSpreadsheet_rejects_without_field_witness :
  createTestSpreadsheet (fun _ => Success Null) (start constructor)
  = (Normal (Rejected TypeError),
     mkSt constructor
          [spreadsheets_create (sheetsService constructor)
             (Obj [("resource",
                    Obj [("properties",
                          Obj [("title", Str "Test Spreadsheet")])]);
                   ("fields", Str "spreadsheetId")])]
          [] [] Pending).
Proof.
  exact (createTestSpreadsheet_rejects_without_field
           (fun _ => Success Null) (start constructor) Null eq_refl eq_refl).
Defined.

(** X3.  When the response of [presentations.create] has a [data] object
    without the key [presentationId], [createTestPresentation] is
    fulfilled with [undefined] and tracks [undefined]; the next [cleanup]
    then issues a delete call whose [fileId] is [undefined]. *)
Theorem createTestPresentation_tracks_undefined
    (remote : Rpc -> Reply) (s : St Helpers Rpc) (res : Val)
    (fields : list (string * Val)) :
  remote (presentations_create (slidesService (this s))
                               (Obj [("title", Str "Test Preso")]))
  = Success res ->
  get res "data" = Normal (Obj fields) ->
  lookup "presentationId" fields = None ->
  let s' := snd (createTestPresentation remote s) in
  fst (createTestPresentation remote s) = Normal (Fulfilled Undefined) /\
  filesToDelete (this s') = filesToDelete (this s) ++ [Undefined] /\
  exists earlier,
    calls (snd (cleanup s'))
    = earlier ++ [files_delete (driveService (this s))
                               (Obj [("fileId", Undefined)])].
Proof.
  intros H Hdata Hkey. cbv zeta. rewrite cleanup_run.
  answer H. rewrite Hdata. cbn [get]. rewrite Hkey. cbn.
  split; [reflexivity|]. split; [reflexivity|].
  rewrite map_app, app_assoc. eexists. reflexivity.
Qed.

Lemma createTestPresentation_tracks_undefined_witness :
  filesToDelete
    (this (snd (createTestPresentation
                  (fun _ => Success (Obj [("data", Obj [])]))
                  (start constructor))))
  = [Undefined].
Proof.
  exact (proj1 (proj2 (createTestPresentation_tracks_undefined
                         (fun _ => Success (Obj [("data", Obj [])]))
                         (start constructor) (Obj [("data", Obj [])]) []
                         eq_refl eq_refl eq_refl))).
Defined.

(* ================================================================== *)
(** ** Further properties: calls that are never answered *)
(* ================================================================== *)

(** X4.  No method of [Helpers] has a timeout: when the remote side never
    answers the one call of a convenience method, the promise of the
    method stays pending, and nothing but the call log changes. *)
Theorem unanswered_call_stays_pending (s : St Helpers Rpc) :
  (exists c, issues_only createTestPresentation s c /\
             stays_pending createTestPresentation s c) /\
  (forall presentationId num predefinedLayout,
     let m := fun remote =>
                addSlides remote presentationId num predefinedLayout in
     exists c, issues_only m s c /\ stays_pending m s c) /\
  (forall presentationId pageObjectId,
     let m := fun remote =>
                createTestTextbox remote presentationId pageObjectId in
     exists c, issues_only m s c /\ stays_pending m s c) /\
  (forall presentationId pageId spreadsheetId sheetChartId,
     let m := fun remote =>
                createTestSheetsChart remote presentationId pageId
                                      spreadsheetId sheetChartId in
     exists c, issues_only m s c /\ stays_pending m s c) /\
  (exists c, issues_only createTestSpreadsheet s c /\
             stays_pending createTestSpreadsheet s c) /\
  (forall spreadsheetId,
     let m := fun remote => populateValues remote spreadsheetId in
     exists c, issues_only m s c /\ stays_pending m s c).
Proof.
  split; [|split; [|split; [|split; [|split]]]].
  - eexists. split; [apply createTestPresentation_call|].
    intros remote H. answer H. reflexivity.
  - intros pid num layout m. subst m. eexists.
    split; [apply (addSlides_call s pid num layout)|].
    intros remote H.
    pose proof (addSlides_loop_run layout num 0) as L.
    rewrite Nat.add_0_r in L.
    unfold addSlides, new_Promise. rewrite L. answer H. reflexivity.
  - intros pid page m. subst m. eexists. split.
    + intros remote. run_cases; reflexivity.
    + intros remote H. answer H. reflexivity.
  - intros pid page sid cid m. subst m. eexists. split.
    + intros remote. run_cases; reflexivity.
    + intros remote H. answer H. reflexivity.
  - eexists. split; [apply createTestSpreadsheet_call|].
    intros remote H. answer H. reflexivity.
  - intros sid m. subst m. eexists.
    split; [apply (populateValues_call s sid)|].
    intros remote H. answer H. reflexivity.
Qed.

Lemma unanswered_call_stays_pending_witness :
  fst (createTestSpreadsheet (fun _ => NoReply) (start constructor))
  = Normal Pending.
Proof.
  destruct (unanswered_call_stays_pending (start constructor))
    as (_ & _ & _ & _ & (c & _ & H) & _).
  now rewrite (H (fun _ => NoReply) eq_refl).
Defined.

(* ================================================================== *)
(** ** Further properties: tracking and cleanup together *)
(* ================================================================== *)

Section Tracking.
Variable s : St Helpers Rpc.

Lemma register_all_run (ids : list Val) :
  register_all ids s
  = mkSt (set_filesToDelete (this s) (filesToDelete (this s) ++ ids))
         (calls s) (console s) (unhandled s) (cell s).
Proof.
  unfold register_all. revert s.
  induction ids as [|id ids IH]; intros [h cs con un c].
  - cbn. rewrite app_nil_r. now destruct h.
  - cbn [fold_left]. rewrite IH. cbn. now rewrite <- app_assoc.
Qed.

End Tracking.

(** X5.  A file created through the helper is deleted by the next
    [cleanup]: when [createTestPresentation] or [createTestSpreadsheet]
    is fulfilled with [id], a [cleanup] run on the resulting helper
    issues the delete calls of the identifiers tracked before, followed
    by the delete call of [id], and no other. *)
Theorem created_file_is_deleted_by_cleanup
    (remote : Rpc -> Reply) (s : St Helpers Rpc) (id : Val) :
  (fst (createTestPresentation remote s) = Normal (Fulfilled id) ->
   let s' := snd (createTestPresentation remote s) in
   calls (snd (cleanup s'))
   = calls s' ++ map (delete_call (this s)) (filesToDelete (this s))
              ++ [delete_call (this s) id]) /\
  (fst (createTestSpreadsheet remote s) = Normal (Fulfilled id) ->
   let s' := snd (createTestSpreadsheet remote s) in
   calls (snd (cleanup s'))
   = calls s' ++ map (delete_call (this s)) (filesToDelete (this s))
              ++ [delete_call (this s) id]).
Proof.
  split.
  - destruct (createTestPresentation_tracks remote s)
      as (p & s' & E & (Hd & _) & Hl).
    rewrite E. cbn [fst snd]. intros [= ->]. rewrite cleanup_run.
    cbn [calls]. rewrite Hl, map_app. unfold delete_call. now rewrite Hd.
  - destruct (createTestSpreadsheet_tracks remote s)
      as (p & s' & E & (Hd & _) & Hl).
    rewrite E. cbn [fst snd]. intros [= ->]. rewrite cleanup_run.
    cbn [calls]. rewrite Hl, map_app. unfold delete_call. now rewrite Hd.
Qed.

Lemma created_file_is_deleted_by_cleanup_witness :
  calls (snd (cleanup (snd (createTestPresentation backend_ok
                                                   (start constructor)))))
  = [presentations_create (slidesService constructor)
                          (Obj [("title", Str "Test Preso")]);
     delete_call constructor (Str "presentation_1")].
Proof.
  exact (proj1 (created_file_is_deleted_by_cleanup
                  backend_ok (start constructor) (Str "presentation_1"))
               eq_refl).
Defined.

(** X6.  [deleteFileOnCleanup] keeps every registration, in order and
    without removing duplicates: after it was called with each element of
    [ids] in turn, the list is the old list followed by [ids], no call
    was issued, and the next [cleanup] issues one delete call per entry,
    so an identifier registered twice is deleted twice. *)
Theorem registrations_are_kept_in_order
    (s : St Helpers Rpc) (ids : list Val) :
  let s' := register_all ids s in
  filesToDelete (this s') = filesToDelete (this s) ++ ids /\
  same_services (this s) (this s') /\
  calls s' = calls s /\
  calls (snd (cleanup s'))
  = calls s ++ map (delete_call (this s)) (filesToDelete (this s))
            ++ map (delete_call (this s)) ids /\
  List.length (calls (snd (cleanup s')))
  = (List.length (calls s) + List.length (filesToDelete (this s))
     + List.length ids)%nat.
Proof.
  cbv zeta. rewrite cleanup_run, register_all_run.
  unfold delete_call.
  cbn [fst snd this calls filesToDelete set_filesToDelete driveService].
  split; [reflexivity|]. split; [auto with helpers|].
  split; [reflexivity|].
  split.
  - now rewrite map_app.
  - repeat (rewrite length_app || rewrite length_map). lia.
Qed.

(* ================================================================== *)
(** ** Further properties: the promise of [cleanup] *)
(* ================================================================== *)


(** X7.  The value of a successful [cleanup] does not depend on the order
    in which the delete calls are answered: whenever every delete call is
    answered, every answer is a success, and the answer to the [i]-th
    call carries [f i], the promise is fulfilled with the array
    [f 0, f 1, ...] in the order of [filesToDelete]. *)
Theorem cleanup_values_in_list_order
    (s : St Helpers Rpc) (schedule : list (nat * Reply)) (f : nat -> Val) :
  (forall i r, In (i, r) schedule -> r = Success (f i)) ->
  (forall i, (i < List.length (filesToDelete (this s)))%nat ->
             exists r, In (i, r) schedule) ->
  exists j,
    cleanup_promise s schedule = Some j /\
    result j
    = Fulfilled (Arr (map f (seq 0 (List.length (filesToDelete (this s)))))).
Proof.
  intros Hsucc Hall. unfold cleanup_promise. rewrite cleanup_run. cbn [fst].
  set (n := List.length (filesToDelete (this s))) in *.
  set (j0 := Promise_all (repeat Pending n)).
  eexists. split; [reflexivity|].
  assert (Hlen : List.length (inputs (deliver_all j0 schedule)) = n).
  { rewrite deliver_all_inputs_length. cbn. apply repeat_length. }
  assert (Hin : inputs (deliver_all j0 schedule)
                = map (fun i => Fulfilled (f i)) (seq 0 n)).
  { apply nth_error_ext. intros k.
    destruct (Nat.lt_ge_cases k n) as [Hk|Hk].
    - rewrite nth_error_map, nth_error_nth' with (d := 0%nat)
        by now rewrite length_seq.
      rewrite seq_nth by assumption. cbn [option_map Nat.add].
      destruct (Hall k Hk) as [r Hr].
      pose proof (Hsucc k r Hr) as ->.
      destruct (delivered_is_settled schedule j0 k _ Hr)
        as (q & Hq & Hne); [discriminate|cbn; now rewrite repeat_length|].
      rewrite Hq. f_equal.
      apply deliver_all_provenance in Hq as [Hq|(r' & Hr' & ->)].
      + cbn in Hq. apply nth_error_In, repeat_spec in Hq. congruence.
      + now rewrite (Hsucc k r' Hr').
    - transitivity (@None PState); [|symmetry];
        apply nth_error_None; [lia|now rewrite length_map, length_seq]. }
  rewrite (joint_inv_all_fulfilled (deliver_all j0 schedule)).
  - rewrite Hin, map_map. reflexivity.
  - apply deliver_all_inv, Promise_all_inv.
  - rewrite Hin. apply forallb_forall. intros p Hp.
    apply in_map_iff in Hp as (i & <- & _). reflexivity.
Qed.

(** Two files, answered in reverse order. *)
Lemma cleanup_values_in_list_order_witness :
  exists j,
    cleanup_promise two_files
      [(1%nat, Success (Str "gone")); (0%nat, Success (Str "gone"))]
    = Some j /\
    result j = Fulfilled (Arr [Str "gone"; Str "gone"]).
Proof.
  apply (cleanup_values_in_list_order two_files
           [(1%nat, Success (Str "gone")); (0%nat, Success (Str "gone"))]
           (fun _ => Str "gone")).
  - intros i r [H|[H|[]]]; now injection H as _ <-.
  - intros i Hi. cbn in Hi.
    destruct i as [|[|i]]; [eexists; right; left; reflexivity
                           |eexists; left; reflexivity|lia].
Defined.

(** X8.  [cleanup] fails with the first error to arrive: when the [i]-th
    delete call is answered by an error before any other delete call was
    answered by an error (and before the [i]-th was answered at all), the
    promise is rejected with exactly that error, whatever arrived before
    and whatever arrives later. *)
Theorem cleanup_rejects_with_first_error
    (s : St Helpers Rpc) (before after : list (nat * Reply))
    (i : nat) (name message : string) :
  (i < List.length (filesToDelete (this s)))%nat ->
  quiet_before i before ->
  exists j,
    cleanup_promise s (before ++ (i, Failure name message) :: after)
    = Some j /\
    result j = Rejected (Err name message).
Proof.
  intros Hi Hquiet. unfold cleanup_promise. rewrite cleanup_run. cbn [fst].
  eexists. split; [reflexivity|]. now apply first_error_rejects.
Qed.

(** The second of two deletes fails first; the first fails later. *)
Lemma cleanup_rejects_with_first_error_witness :
  exists j,
    cleanup_promise two_files
      [(0%nat, NoReply); (1%nat, Failure "Error" "not found");
       (0%nat, Failure "Error" "too late")]
    = Some j /\
    result j = Rejected (Err "Error" "not found").
Proof.
  apply (cleanup_rejects_with_first_error two_files
           [(0%nat, NoReply)] [(0%nat, Failure "Error" "too late")]
           1 "Error" "not found").
  - cbn. lia.
  - intros k r [H|[]]. injection H as _ <-. exact I.
Defined.

(** X9.  The promise of [cleanup] settles once: when it is fulfilled or
    rejected after the answers of [schedule], answers that arrive later
    (duplicates included) leave it as it is. *)
Theorem cleanup_promise_settles_once
    (s : St Helpers Rpc) (schedule later : list (nat * Reply)) (j : Joint) :
  cleanup_promise s schedule = Some j ->
  is_pending (result j) = false ->
  exists j',
    cleanup_promise s (schedule ++ later) = Some j' /\
    result j' = result j.
Proof.
  unfold cleanup_promise. rewrite cleanup_run. cbn [fst].
  intros [= <-] H. eexists. split; [reflexivity|].
  unfold deliver_all at 1. rewrite fold_left_app.
  now apply deliver_all_result_stable.
Qed.

Lemma cleanup_promise_settles_once_witness :
  exists j',
    cleanup_promise two_files
      ([(0%nat, Failure "Error" "not found")]
       ++ [(1%nat, Success Null); (0%nat, Success Null)])
    = Some j' /\
    result j' = Rejected (Err "Error" "not found").
Proof.
  exact (cleanup_promise_settles_once two_files
           [(0%nat, Failure "Error" "not found")]
           [(1%nat, Success Null); (0%nat, Success Null)]
           _ eq_refl eq_refl).
Defined.

(* ================================================================== *)
(** ** Further properties: the Chat script as a whole *)
(* ================================================================== *)

(** X10.  When [createClientWithUserCredentials] fails, [main] is
    rejected with exactly that error before any request is sent: the
    script issues no remote call, prints the error with [console.error]
    and prints nothing else. *)
Theorem client_failure_is_logged_without_call
    (ChatClient : Type)
    (createClientWithUserCredentials :
       list string -> Chat.ClientResult ChatClient)
    (remote : Chat.Rpc ChatClient -> Reply)
    (s : St unit (Chat.Rpc ChatClient)) (name message : string) :
  createClientWithUserCredentials Chat.USER_AUTH_OAUTH_SCOPES
  = Chat.ClientError name message ->
  Chat.main createClientWithUserCredentials remote s
  = (Normal (Rejected (Err name message)), s) /\
  Chat.script createClientWithUserCredentials remote s
  = (Normal (Fulfilled Undefined),
     mkSt (this s) (calls s)
          (console s ++ [console_error (Err name message)])
          (unhandled s) (cell s)).
Proof.
  intros Hc. split.
  - unfold Chat.main, Chat.await_client, async, bind, throw.
    now rewrite Hc.
  - now rewrite script_run, Hc.
Qed.

Lemma client_failure_is_logged_without_call_witness :
  Chat.script Chat.no_credentials (fun _ => Success Null) Chat.start
  = (Normal (Fulfilled Undefined),
     mkSt tt [] [console_error (Err "Error" "no credentials")] [] Pending).
Proof.
  exact (proj2 (client_failure_is_logged_without_call
                  string Chat.no_credentials (fun _ => Success Null)
                  Chat.start "Error" "no credentials" eq_refl)).
Defined.

(** X11.  Whatever the client factory and the remote side answer, the
    top-level promise [main().catch(console.error)] is never rejected
    and no exception escapes: the script either ends, fulfilled with
    [undefined] after printing exactly one line (the response with
    [console.log], or the error with [console.error]), or stays pending
    having printed nothing; and it issues at most one remote call. *)
Theorem script_never_rejects
    (ChatClient : Type)
    (createClientWithUserCredentials :
       list string -> Chat.ClientResult ChatClient)
    (remote : Chat.Rpc ChatClient -> Reply)
    (s : St unit (Chat.Rpc ChatClient)) :
  let run := Chat.script createClientWithUserCredentials remote s in
  unhandled (snd run) = unhandled s /\
  (List.length (calls (snd run)) <= S (List.length (calls s)))%nat /\
  ((fst run = Normal (Fulfilled Undefined) /\
    exists v, console (snd run) = console s ++ [console_log v] \/
              console (snd run) = console s ++ [console_error v]) \/
   (fst run = Normal Pending /\ console (snd run) = console s)).
Proof.
  cbv zeta. rewrite script_run.
  destruct (createClientWithUserCredentials _) as [c|n m|]; cbv zeta.
  - destruct (remote _) as [r|n m|]; cbn [fst snd calls console unhandled];
      rewrite length_app; cbn [List.length];
      (split; [reflexivity|]); (split; [lia|]).
    + left. split; [reflexivity|]. exists r. now left.
    + left. split; [reflexivity|]. exists (Err n m). now right.
    + right. now split.
  - cbn [fst snd calls console unhandled].
    split; [reflexivity|]. split; [lia|].
    left. split; [reflexivity|]. exists (Err n m). now right.
  - cbn [fst snd]. split; [reflexivity|]. split; [lia|]. right. now split.
Qed.

(* ================================================================== *)
(** ** Further properties: the identifiers of [addSlides] *)
(* ================================================================== *)

Section SlideIdentifiers.

Lemma to_uint_nonnil (n : nat) : Nat.to_uint n <> Decimal.Nil.
Proof.
  rewrite <- (DecimalNat.Unsigned.of_to n) at 1.
  rewrite DecimalNat.Unsigned.to_of. apply DecimalFacts.unorm_nonnil.
Qed.

(** Different numbers print differently. *)
Lemma decimal_inj (n n' : nat) : decimal n = decimal n' -> n = n'.
Proof.
  unfold decimal. intros H.
  apply (f_equal NilZero.uint_of_string) in H.
  rewrite !NilZero.usu in H by apply to_uint_nonnil.
  injection H as H. now apply DecimalNat.Unsigned.to_uint_inj.
Qed.

Lemma slide_id_inj (i i' : nat) : slide_id i = slide_id i' -> i = i'.
Proof.
  unfold slide_id. cbn. intros H. injection H as H. now apply decimal_inj.
Qed.

Lemma slide_ids_NoDup (n : nat) : NoDup (slide_ids n).
Proof.
  unfold slide_ids. apply NoDup_map_NoDup_ForallPairs; [|apply seq_NoDup].
  intros i i' _ _. apply slide_id_inj.
Qed.

End SlideIdentifiers.

(** X12.  The identifiers [addSlides] hands out within one invocation are
    pairwise distinct: whenever its promise is fulfilled, the value is an
    array without repetition, with as many entries as there are counters
    [0, 1, 2, ...] below [num] ([num] rounded up for a positive finite
    [num], none otherwise). *)
Theorem addSlides_identifiers_distinct
    (remote : Rpc -> Reply) (s : St Helpers Rpc) (presentationId : Val)
    (num : Number) (predefinedLayout v : Val) :
  fst (addSlides remote presentationId num predefinedLayout s)
  = Normal (Fulfilled v) ->
  exists ids,
    v = Arr ids /\ NoDup ids /\
    (forall i, (i < List.length ids)%nat <-> less_than i num = true) /\
    (forall q, num = Finite q ->
               Z.of_nat (List.length ids) = Z.max 0 (Qceiling q)).
Proof.
  intros H. apply addSlides_fulfilled_value in H.
  exists (slide_ids (slide_count num)). split; [assumption|].
  split; [apply slide_ids_NoDup|].
  rewrite slide_ids_length. split.
  - intros i. symmetry. apply less_than_slide_count.
  - intros q ->. cbn [slide_count]. lia.
Qed.

(** Three distinct identifiers for [num = 2.5]. *)
Lemma addSlides_identifiers_distinct_witness :
  exists ids,
    Arr [Str "slide_0"; Str "slide_1"; Str "slide_2"] = Arr ids /\
    NoDup ids /\
    (forall i, (i < List.length ids)%nat
               <-> less_than i (Finite (5 # 2)) = true) /\
    (forall q, Finite (5 # 2) = Finite q ->
               Z.of_nat (List.length ids) = Z.max 0 (Qceiling q)).
Proof.
  exact (addSlides_identifiers_distinct backend_ok (start constructor)
           (Str "presentation_1") (Finite (5 # 2)) (Str "BLANK") _ eq_refl).
Defined.

(** X13.  When [num] is not positive ([num <= 0], [NaN], [-Infinity])
    the guard of the loop of [addSlides] fails at its first test, yet the
    method still sends its [batchUpdate], with an empty list of requests,
    and on success is fulfilled with the empty array. *)
Theorem addSlides_without_slides
    (s : St Helpers Rpc) (presentationId : Val) (num : Number)
    (predefinedLayout : Val) :
  not_positive num ->
  let m := fun remote =>
             addSlides remote presentationId num predefinedLayout in
  let c := presentations_batchUpdate (slidesService (this s))
             (Obj [("presentationId", presentationId);
                   ("resource", Obj [("requests", Arr [])])]) in
  less_than 0 num = false /\
  issues_only m s c /\
  forall remote res,
    remote c = Success res ->
    fst (m remote s) = Normal (Fulfilled (Arr [])).
Proof.
  intros Hnum m c.
  assert (Hzero : slide_count num = 0%nat).
  { destruct num as [q| |]; cbn [not_positive slide_count] in *;
      try reflexivity.
    apply Qceiling_resp_le in Hnum. change (Qceiling 0) with 0 in Hnum. lia. }
  pose proof (addSlides_call s presentationId num predefinedLayout) as H.
  cbv zeta in H. rewrite Hzero in H.
  destruct H as (Hissue & _ & Hok).
  split.
  { apply not_true_iff_false. intros Hg.
    apply less_than_slide_count in Hg. lia. }
  split; [exact Hissue|].
  intros remote res Hr. unfold m. now rewrite (Hok remote res Hr).
Qed.

(** [num = 0], where a guard [i <= num] would make one slide. *)
Lemma addSlides_without_slides_witness :
  calls (snd (addSlides backend_ok (Str "presentation_1") (Finite 0)
                        (Str "BLANK") (start constructor)))
  = [presentations_batchUpdate (slidesService constructor)
       (Obj [("presentationId", Str "presentation_1");
             ("resource", Obj [("requests", Arr [])])])] /\
  fst (addSlides backend_ok (Str "presentation_1") (Finite 0) (Str "BLANK")
                 (start constructor))
  = Normal (Fulfilled (Arr [])).
Proof.
  assert (H : not_positive (Finite 0)) by (cbn; apply Qle_refl).
  destruct (addSlides_without_slides (start constructor)
              (Str "presentation_1") (Finite 0) (Str "BLANK") H)
    as (_ & Hissue & Hok).
  split.
  - exact (Hissue backend_ok).
  - exact (Hok backend_ok _ eq_refl).
Defined.

(* ================================================================== *)
(** ** Further properties: an empty list, and the console *)
(* ================================================================== *)

(** X14.  With nothing tracked (as after the constructor or [reset]),
    [cleanup] issues no call and its promise is fulfilled with the empty
    array at once, whatever arrives afterwards. *)
Theorem cleanup_of_empty_list
    (s : St Helpers Rpc) (schedule : list (nat * Reply)) :
  filesToDelete (this s) = [] ->
  snd (cleanup s) = s /\
  exists j,
    cleanup_promise s schedule = Some j /\
    result j = Fulfilled (Arr []).
Proof.
  intros Hempty. unfold cleanup_promise. rewrite cleanup_run, Hempty.
  cbn [fst snd List.length repeat map]. split.
  - rewrite app_nil_r. now destruct s.
  - eexists. split; [reflexivity|].
    now rewrite deliver_all_result_stable.
Qed.

Lemma cleanup_of_empty_list_witness :
  exists j,
    cleanup_promise (snd (reset two_files)) [(0%nat, Success Null)] = Some j /\
    result j = Fulfilled (Arr []).
Proof.
  exact (proj2 (cleanup_of_empty_list (snd (reset two_files))
                  [(0%nat, Success Null)] eq_refl)).
Defined.

(** X15.  [Helpers] never writes to the console: whatever the remote
    side answers, every method leaves the console as it was; a failure
    only shows in the promise returned. *)
Theorem helpers_never_print (remote : Rpc -> Reply) (s : St Helpers Rpc) :
  console (snd (reset s)) = console s /\
  (forall id, console (snd (deleteFileOnCleanup id s)) = console s) /\
  console (snd (cleanup s)) = console s /\
  console (snd (createTestPresentation remote s)) = console s /\
  (forall presentationId num predefinedLayout,
     console (snd (addSlides remote presentationId num predefinedLayout s))
     = console s) /\
  (forall presentationId pageObjectId,
     console (snd (createTestTextbox remote presentationId pageObjectId s))
     = console s) /\
  (forall presentationId pageId spreadsheetId sheetChartId,
     console (snd (createTestSheetsChart remote presentationId pageId
                                         spreadsheetId sheetChartId s))
     = console s) /\
  console (snd (createTestSpreadsheet remote s)) = console s /\
  (forall spreadsheetId,
     console (snd (populateValues remote spreadsheetId s)) = console s).
Proof.
  split; [reflexivity|]. split; [reflexivity|].
  split; [now rewrite cleanup_run|].
  split; [run_cases; reflexivity|].
  split.
  { intros pid num layout. run_method. unfold never.
    destruct (addSlides_loop _ _ _ _ _ _) as [[slideIds requests]|].
    - repeat split_match; reflexivity.
    - reflexivity. }
  split; [intros pid page; run_cases; reflexivity|].
  split; [intros pid page sid cid; run_cases; reflexivity|].
  split; [run_cases; reflexivity|].
  intros sid; run_cases; reflexivity.
Qed.
